(** * learn-pdf-with-go: trailer, cross-reference table and object extraction

    A shallow embedding of [read.go].  Go's [string] and [[]byte] are both
    byte sequences and are modelled by [string] (a list of 8-bit [ascii]).
    Go's [int] is taken to be 64 bits wide (the amd64/arm64 ports), so
    [int] and [int64] are both modelled by [Z] with the two's-complement
    wrap-around written out by [wrap64].  A Go function returning
    [(T, error)] is a pair [T * option error] ([None] is the nil error);
    a run-time panic is the [Panicked] outcome of [exec]. *)

From Stdlib Require Import ZArith List Bool Ascii String Lia.
Import ListNotations.
Open Scope string_scope.
Open Scope Z_scope.

(** ** Machine integers *)

Definition wrap64 (z : Z) : Z := (z + 2 ^ 63) mod 2 ^ 64 - 2 ^ 63.

Definition min_int64 : Z := - 2 ^ 63.
Definition max_int64 : Z := 2 ^ 63 - 1.
Definition max_uint64 : Z := 2 ^ 64 - 1.

(** ** Errors *)

Inductive NumErrKind := ErrSyntax | ErrRange.

(** The error values the program can meet.  [ErrWrap msg inner] is
    [fmt.Errorf(msg + ": %w", inner)]; [ErrWrapNil msg] is the same call
    with a nil [inner], as happens in [readTrailer] when [/Size] parses to
    zero. *)
Inductive error :=
| EOF                                            (* io.EOF *)
| ErrNew (msg : string)                          (* errors.New, fmt.Errorf without verbs *)
| ErrWrap (msg : string) (inner : error)
| ErrWrapNil (msg : string)
| NumError (fn num : string) (kind : NumErrKind) (* strconv.NumError *)
| ErrTooLong                                     (* bufio.ErrTooLong *)
| ErrNegativeOffset.                             (* os.File.ReadAt: "negative offset" *)

(** A run-time panic: indexing a slice of length [n] at [i >= n]. *)
Inductive panic :=
| IndexOutOfRange (i n : nat).

(** Outcome of a computation that may panic. *)
Inductive exec (A : Type) :=
| Done (a : A)
| Panicked (p : panic).
Arguments Done {A} a.
Arguments Panicked {A} p.

Definition bind {A B} (m : exec A) (k : A -> exec B) : exec B :=
  match m with
  | Done a => k a
  | Panicked p => Panicked p
  end.

Notation "x <- m ;; k" := (bind m (fun x => k))
  (at level 61, m at next level, right associativity).
Notation "' p <- m ;; k" := (bind m (fun p => k))
  (at level 61, p pattern, m at next level, right associativity).

(** ** Byte strings *)

Definition nl : string := String (ascii_of_nat 10) "".
Definition cr : ascii := ascii_of_nat 13.
Definition isNL (c : ascii) : bool := Ascii.eqb c (ascii_of_nat 10).

Fixpoint drop (n : nat) (s : string) : string :=
  match n, s with
  | O, _ => s
  | S _, EmptyString => EmptyString
  | S k, String _ r => drop k r
  end.

Fixpoint take (n : nat) (s : string) : string :=
  match n, s with
  | O, _ => EmptyString
  | S _, EmptyString => EmptyString
  | S k, String c r => String c (take k r)
  end.

Fixpoint zeros (n : nat) : string :=
  match n with
  | O => EmptyString
  | S k => String zero (zeros k)
  end.

Definition len (s : string) : Z := Z.of_nat (String.length s).

(** [strings.HasPrefix]. *)
Fixpoint HasPrefix (s p : string) : bool :=
  match p, s with
  | EmptyString, _ => true
  | String _ _, EmptyString => false
  | String a p', String b s' => Ascii.eqb a b && HasPrefix s' p'
  end.

(** [strings.HasSuffix]: [len(s) >= len(suffix) && s[len(s)-len(suffix):] == suffix]. *)
Definition HasSuffix (s suffix : string) : bool :=
  (String.length suffix <=? String.length s)%nat
  && String.eqb (drop (String.length s - String.length suffix) s) suffix.

(** [strings.Index] / [bytes.Index]: position of the first occurrence of
    [sub] in [s], or [-1]. *)
Fixpoint IndexFrom (i : Z) (s sub : string) : Z :=
  if HasPrefix s sub then i
  else match s with
       | EmptyString => -1
       | String _ r => IndexFrom (i + 1) r sub
       end.

Definition Index (s sub : string) : Z := IndexFrom 0 s sub.

Definition lower (c : ascii) : ascii :=
  let n := nat_of_ascii c in
  if ((65 <=? n) && (n <=? 90))%nat then ascii_of_nat (n + 32) else c.

(** [strings.EqualFold], restricted to ASCII case folding.  The program
    only compares against ["endobj"], whose letters have no non-ASCII
    Unicode fold partner, so for that use the two coincide. *)
Fixpoint EqualFold (s t : string) : bool :=
  match s, t with
  | EmptyString, EmptyString => true
  | String a s', String b t' => Ascii.eqb (lower a) (lower b) && EqualFold s' t'
  | _, _ => false
  end.

(** Cut [s] at its first space. *)
Fixpoint cutSpace (s : string) : option (string * string) :=
  match s with
  | EmptyString => None
  | String c r =>
      if Ascii.eqb c " " then Some (EmptyString, r)
      else match cutSpace r with
           | Some (a, b) => Some (String c a, b)
           | None => None
           end
  end.

(** [strings.SplitN(s, " ", n)] for [n >= 0]: at most [n] pieces, the last
    one being the unsplit remainder. *)
Fixpoint SplitN (s : string) (n : nat) : list string :=
  match n with
  | O => []
  | S O => [s]
  | S k => match cutSpace s with
           | Some (a, r) => a :: SplitN r k
           | None => [s]
           end
  end.

(** Slice indexing [a[i]], which panics out of range. *)
Definition at_index (a : list string) (i : nat) : exec string :=
  match nth_error a i with
  | Some x => Done x
  | None => Panicked (IndexOutOfRange i (List.length a))
  end.

(** ** strconv *)

Definition digitVal (c : ascii) : option Z :=
  let n := nat_of_ascii c in
  if ((48 <=? n) && (n <=? 57))%nat then Some (Z.of_nat n - 48) else None.

(** The digit loop of [strconv.ParseUint(s, 10, 64)]: a byte that is not a
    decimal digit is a syntax error, a value above 2^64-1 a range error. *)
Fixpoint parseDigits (s : string) (acc : Z) : Z + NumErrKind :=
  match s with
  | EmptyString => inl acc
  | String c r =>
      match digitVal c with
      | None => inr ErrSyntax
      | Some d =>
          if max_uint64 <? acc * 10 + d then inr ErrRange
          else parseDigits r (acc * 10 + d)
      end
  end.

Definition ParseUint (s : string) : Z + NumErrKind :=
  match s with
  | EmptyString => inr ErrSyntax
  | _ => parseDigits s 0
  end.

(** [strconv.ParseInt(s, 10, 64)], reporting errors under the name [fn]. *)
Definition parseInt64 (fn : string) (s0 : string) : Z + error :=
  match s0 with
  | EmptyString => inr (NumError fn s0 ErrSyntax)
  | String c r =>
      let neg := Ascii.eqb c "-" in
      let s := if Ascii.eqb c "+" || neg then r else s0 in
      match ParseUint s with
      | inr ErrSyntax => inr (NumError fn s0 ErrSyntax)
      | inr ErrRange => inr (NumError fn s0 ErrRange)
      | inl un =>
          if negb neg && (2 ^ 63 <=? un) then inr (NumError fn s0 ErrRange)
          else if neg && (2 ^ 63 <? un) then inr (NumError fn s0 ErrRange)
          else inl (if neg then - un else un)
      end
  end.

Definition ParseInt (s : string) : Z + error := parseInt64 "ParseInt" s.

(** [strconv.Atoi]: with a 64-bit [int] it accepts the same strings and
    yields the same values as [ParseInt(s, 10, 64)]. *)
Definition Atoi (s : string) : Z + error := parseInt64 "Atoi" s.

(** ** Data model *)

(** 7.5.4 Cross-Reference Table *)
Record XrefEntry := mkXrefEntry {
  ByteOffset : Z;
  Number : Z;
  Generation : Z;
  InUse : bool
}.

Definition zeroXrefEntry : XrefEntry := mkXrefEntry 0 0 0 false.

(** The only [io.ReaderAt] the program uses is the opened [*os.File]; it is
    modelled by the file's contents. *)
Record File := mkFile { contents : string }.

(** 7.5.5 Trailer *)
Record Trailer := mkTrailer {
  StartXref : Z;
  Size : Z;
  Raw : string;
  ra : File
}.

(** ** findXrefEntry *)

Fixpoint findXrefEntry (entries : list XrefEntry) (number generation : Z)
  : XrefEntry * option error :=
  match entries with
  | [] => (zeroXrefEntry, Some (ErrNew "no entry found"))
  | ent :: rest =>
      if (Number ent =? number) && (Generation ent =? generation)
      then (ent, None)
      else findXrefEntry rest number generation
  end.

(** ** Random access and the offset reader *)

(** [ReadAt(p, off)] of an [os.File], with [len(p) = n]: a negative offset is an
    error; otherwise the bytes available at [off] are copied, and a short
    read is reported together with [io.EOF].  The operating system refuses
    a read whose end [off + n] lies beyond the largest [int64]; reads of
    that kind are outside this model, and a property whose result they
    would change is stated for reads that end within the range. *)
Definition File_ReadAt (f : File) (n : nat) (off : Z) : string * option error :=
  if off <? 0 then (EmptyString, Some ErrNegativeOffset)
  else
    let d := take n (drop (Z.to_nat off) (contents f)) in
    (d, if (String.length d <? n)%nat then Some EOF else None).

Record AtReader := mkAtReader {
  ar_ra : File;
  ar_offset : Z
}.

Definition NewAtReader (r : File) (offset : Z) : AtReader := mkAtReader r offset.

(** [Read(p)] of an [AtReader], with [len(p) = n].  The cursor never passes the
    end of the file, whose size is an [int64], so the addition is exact. *)
Definition AtReader_Read (ar : AtReader) (n : nat)
  : (string * option error) * AtReader :=
  let '(d, err) := File_ReadAt (ar_ra ar) n (ar_offset ar) in
  match err with
  | Some EOF | None => ((d, err), mkAtReader (ar_ra ar) (ar_offset ar + len d))
  | Some _ => ((d, err), ar)
  end.

(** What a consumer receives from successive [Read] calls of [chunk] bytes
    until the reader reports end of data or an error ([io.ReadAll], and the
    refills of a [bufio.Scanner]). *)
Fixpoint readAll (fuel chunk : nat) (ar : AtReader) : string * option error :=
  match fuel with
  | O => (EmptyString, None)
  | S k =>
      let '((d, err), ar') := AtReader_Read ar chunk in
      match err with
      | Some EOF => (d, None)
      | Some e => (d, Some e)
      | None => let '(d', e') := readAll k chunk ar' in (d ++ d', e')
      end
  end.

Definition AtReader_stream (ar : AtReader) : string * option error :=
  readAll (S (String.length (contents (ar_ra ar)))) 4096 ar.

(** ** bufio.Scanner with the default line splitter *)

Definition MaxScanTokenSize : Z := 65536.

(** [dropCR]: remove one trailing carriage return. *)
Fixpoint dropCR (s : string) : string :=
  match s with
  | EmptyString => EmptyString
  | String c EmptyString => if Ascii.eqb c cr then EmptyString else s
  | String c r => String c (dropCR r)
  end.

(** The tokens that successive [Scan] calls deliver over [data], and the
    error that ends the scan.  [acc] holds the [n] bytes of the line being
    collected.  A line is ended by a newline; an unterminated non-empty
    last line is delivered too.  When [MaxScanTokenSize] bytes hold no
    newline the buffer cannot grow any further and the scan stops with
    [ErrTooLong]. *)
Fixpoint scanFrom (acc : string) (n : Z) (data : string)
  : list string * option error :=
  match data with
  | EmptyString => (if n =? 0 then [] else [dropCR acc], None)
  | String c rest =>
      if isNL c then
        let '(ts, e) := scanFrom EmptyString 0 rest in (dropCR acc :: ts, e)
      else if MaxScanTokenSize <=? n + 1 then ([], Some ErrTooLong)
      else scanFrom (acc ++ String c EmptyString) (n + 1) rest
  end.

(** A scanner is the sequence of tokens still to be delivered and the error
    [Err()] reports once [Scan] has returned false ([None] at a clean end of
    data).  [Scan] returning true is the head of [toks]; after a false
    [Scan], [Text()] is empty. *)
Record Scanner := mkScanner {
  toks : list string;
  ferr : option error
}.

Definition NewScanner (stream : string * option error) : Scanner :=
  let '(data, rerr) := stream in
  let '(ts, e) := scanFrom EmptyString 0 data in
  mkScanner ts (match e with Some x => Some x | None => rerr end).

(** [scanner.Scan(); scanner.Text()]. *)
Definition Text (ts : list string) : string :=
  match ts with
  | t :: _ => t
  | [] => EmptyString
  end.

(** ** readEntry *)

(** The loop of [readEntry] over the lines after the first; the boolean
    tells whether the loop ended because [Scan] returned false. *)
Fixpoint entryLoop (ts : list string) (b : string) : string * bool :=
  match ts with
  | [] => (b, true)
  | l :: rest =>
      if EqualFold l "endobj" then (b ++ l ++ nl, false)
      else entryLoop rest (b ++ l ++ nl)
  end.

Definition readEntry (ent : XrefEntry) (r : File) : string * option error :=
  let ar := NewAtReader r (ByteOffset ent) in
  let scanner := NewScanner (AtReader_stream ar) in
  let l := Text (toks scanner) in
  if negb (HasSuffix l "obj") then
    (EmptyString, Some (ErrNew "should start with a reference object"))
  else
    let '(b, exhausted) := entryLoop (tl (toks scanner)) (l ++ nl) in
    match (if exhausted then ferr scanner else None) with
    | Some err => (EmptyString, Some (ErrWrap "unable to read entry" err))
    | None => (b, None)
    end.

(** ** readTrailer *)

Definition findTrailerInBlock (b : string) : Z := Index b "trailer".

Definition setStartXref (tr : Trailer) (v : Z) : Trailer :=
  mkTrailer v (Size tr) (Raw tr) (ra tr).
Definition setSize (tr : Trailer) (v : Z) : Trailer :=
  mkTrailer (StartXref tr) v (Raw tr) (ra tr).
Definition setRaw (tr : Trailer) (b : string) : Trailer :=
  mkTrailer (StartXref tr) (Size tr) b (ra tr).

Definition sizeEntry : string := "/Size".

(** The scanning loop of [readTrailer] over the lines still to be
    delivered.  [Some err] is an early [return tr, err]; [None] means the
    loop ran until [Scan] returned false. *)
Fixpoint trailerLoop (tr : Trailer) (ts : list string) : Trailer * option error :=
  match ts with
  | [] => (tr, None)
  | l :: rest =>
      if HasPrefix l "startxref" then
        (* scanner.Scan(); strconv.ParseInt(scanner.Text(), 10, 64) *)
        match rest with
        | t :: rest' =>
            match ParseInt t with
            | inr err => (tr, Some (ErrWrap "unable to parse startxref" err))
            | inl xref => trailerLoop (setStartXref tr xref) rest'
            end
        | [] =>
            match ParseInt EmptyString with
            | inr err => (tr, Some (ErrWrap "unable to parse startxref" err))
            | inl xref => trailerLoop (setStartXref tr xref) rest
            end
        end
      else
        let n := Index l (sizeEntry ++ " ") in
        if 0 <=? n then
          match ParseInt (drop (Z.to_nat (n + len sizeEntry + 1)) l) with
          | inr err => (tr, Some (ErrWrap "unable to parse /Size" err))
          | inl size =>
              if size =? 0 then (tr, Some (ErrWrapNil "unable to parse /Size"))
              else trailerLoop (setSize tr size) rest
          end
        else trailerLoop tr rest
  end.

Definition readTrailer (r : File) (size : Z) : Trailer * option error :=
  let tr := mkTrailer 0 0 EmptyString r in
  let '(d, err) := File_ReadAt r 1024 (wrap64 (size - 1024)) in
  (* buf is 1024 zero bytes of which ReadAt overwrote the first len(d) *)
  let buf := d ++ zeros (1024 - String.length d) in
  match err with
  | Some EOF | None =>
      let p := findTrailerInBlock buf in
      let buf := if 0 <? p then drop (Z.to_nat p) buf else buf in
      let tr := setRaw tr buf in
      let scanner := NewScanner (buf, None) in
      match trailerLoop tr (toks scanner) with
      | (tr, Some e) => (tr, Some e)
      | (tr, None) =>
          match ferr scanner with
          | Some e => (tr, Some (ErrWrap "unable to scan the trailer" e))
          | None => (tr, None)
          end
      end
  | Some e => (tr, Some e)
  end.

(** ** ListXrefEntries *)

Definition readXrefEntry (entry : list string) : exec (XrefEntry * option error) :=
  e0 <- at_index entry 0;;
  match ParseInt e0 with
  | inr err =>
      Done (zeroXrefEntry, Some (ErrWrap "unable to read xref entry offset" err))
  | inl offset =>
      e1 <- at_index entry 1;;
      match Atoi e1 with
      | inr err =>
          Done (mkXrefEntry offset 0 0 false,
                Some (ErrWrap "unable to read xref entry generation" err))
      | inl generation =>
          e2 <- at_index entry 2;;
          Done (mkXrefEntry offset 0 generation (HasPrefix e2 "n"), None)
      end
  end.

(** The local variables of the scanning loop of [ListXrefEntries]. *)
Record LoopState := mkLoopState {
  entries : list XrefEntry;
  offset : Z;
  pos : Z;
  count : Z;
  total : Z
}.

Definition initLoop : LoopState := mkLoopState [] 0 0 0 0.

(** How the loop ends: [Scan] returned false, the [break] at
    [t.Size == total] was taken, or the function returned an error. *)
Inductive LoopEnd :=
| Exhausted (st : LoopState)
| Broke (st : LoopState)
| Returned (e : error).

Definition setNumber (e : XrefEntry) (n : Z) : XrefEntry :=
  mkXrefEntry (ByteOffset e) n (Generation e) (InUse e).

(** One pass through the body of the scanning loop on the line [l], past
    the [break] test: [inl st'] goes on to the next [Scan] (a [continue]
    included), [inr e] is [return nil, e]. *)
Definition xrefBody (st : LoopState) (l : string) : exec (LoopState + error) :=
  let entry := SplitN l 3 in
  if (List.length entry =? 2)%nat then
    (* this is a subsection *)
    e0 <- at_index entry 0;;
    match Atoi e0 with
    | inr err =>
        Done (inr (ErrWrap "unable to read xref subsection offset" err))
    | inl off =>
        e1 <- at_index entry 1;;
        match Atoi e1 with
        | inr err =>
            Done (inr (ErrWrap "unable to read xref subsection count" err))
        | inl cnt =>
            (* reset pos *)
            Done (inl (mkLoopState (entries st) off 0 cnt (total st)))
        end
    end
  else if pos st =? count st then
    (* skip since we have already read all entry in the subsection *)
    Done (inl st)
  else
    '(xrefEntry, err) <- readXrefEntry entry;;
    match err with
    | Some e => Done (inr e)
    | None =>
        Done (inl (mkLoopState
                     (entries st
                      ++ [setNumber xrefEntry (wrap64 (offset st + pos st))])
                     (offset st) (wrap64 (pos st + 1)) (count st)
                     (wrap64 (total st + 1))))
    end.

Fixpoint xrefLoop (size : Z) (ts : list string) (st : LoopState) : exec LoopEnd :=
  match ts with
  | [] => Done (Exhausted st)
  | l :: rest =>
      if size =? total st then Done (Broke st)
      else
        r <- xrefBody st l;;
        match r with
        | inl st' => xrefLoop size rest st'
        | inr e => Done (Returned e)
        end
  end.

Definition endState (r : LoopEnd) : option LoopState :=
  match r with
  | Exhausted st | Broke st => Some st
  | Returned _ => None
  end.

Definition ListXrefEntries (t : Trailer) : exec (list XrefEntry * option error) :=
  let scanner := NewScanner (AtReader_stream (NewAtReader (ra t) (StartXref t))) in
  if negb (String.eqb (Text (toks scanner)) "xref") then
    Done ([], Some (ErrNew "should be xref"))
  else
    r <- xrefLoop (Size t) (tl (toks scanner)) initLoop;;
    match r with
    | Returned e => Done ([], Some e)
    | Broke st => Done (entries st, None)
    | Exhausted st =>
        match ferr scanner with
        | Some e => Done ([], Some (ErrWrap "unable to scan the trailer" e))
        | None => Done (entries st, None)
        end
    end.

(** ** Definitions used to state the properties *)

(** [lines ls] is the text whose lines are [ls], each ended by a newline. *)
Fixpoint lines (ls : list string) : string :=
  match ls with
  | [] => EmptyString
  | l :: r => l ++ nl ++ lines r
  end.

Fixpoint fill (n : nat) (c : ascii) : string :=
  match n with
  | O => EmptyString
  | S k => String c (fill k c)
  end.

(** A file of more than 1024 bytes: a comment line of 1024 [%] signs
    followed by the lines [ls]. *)
Definition paddedFile (ls : list string) : File :=
  mkFile (fill 1024 "%" ++ nl ++ lines ls).


Definition plainLineb (l : string) : bool :=
  negb (HasPrefix l "startxref") && (Index l "/Size " <? 0).

Fixpoint noNewline (s : string) : bool :=
  match s with
  | EmptyString => true
  | String c r => negb (isNL c) && noNewline r
  end.

(** A line is read as a subsection header when it splits into exactly two
    pieces. *)
Definition isSubsection (l : string) : bool :=
  (List.length (SplitN l 3) =? 2)%nat.

(** A raw line that the scanner delivers whole and that splits into three
    pieces, as every well-formed entry line
    [nnnnnnnnnn ggggg n] does. *)
Definition threeFieldLine (l : string) : bool :=
  noNewline l && (len l <? MaxScanTokenSize)
  && (List.length (SplitN (dropCR l) 3) =? 3)%nat.

Definition catalogObject : string :=
  "5 0 obj" ++ nl ++ "<< /Type /Catalog >>" ++ nl ++ "endobj" ++ nl.

(** The last 1024 bytes of a file, cut at the [trailer] keyword when it
    occurs past the first byte: the block [readTrailer] scans and keeps in
    [Raw]. *)
Definition trailerBlock (f : File) : string :=
  let buf := drop (String.length (contents f) - 1024) (contents f) in
  let p := findTrailerInBlock buf in
  if 0 <? p then drop (Z.to_nat p) buf else buf.

Definition smallPDF : File :=
  mkFile (lines ["%PDF-1.4"; "1 0 obj"; "<< /Type /Catalog >>"; "endobj";
                 "xref"; "0 2"; "0000000000 65535 f "; "0000000009 00000 n ";
                 "trailer"; "/Size 2"; "startxref"; "45"; "%%EOF"]).

(** The text of a [/Size] line from just after the first ["/Size "] to the
    end of the line. *)
Definition sizeText (l : string) : string :=
  drop (Z.to_nat (Index l "/Size " + 6)) l.

(** A line is plain when the loop of [readTrailer] passes over it: it
    neither begins with [startxref] nor contains ["/Size "]. *)
Definition plainLine (l : string) : Prop :=
  HasPrefix l "startxref" = false /\ Index l "/Size " < 0.

Definition twoSubsections : File :=
  mkFile (lines ["xref"; "0 1"; "0000000000 65535 f ";
                 "3 2"; "0000000017 00000 n "; "0000000081 00000 n ";
                 "trailer"]).

(** A file whose table holds the one-field line [0000000017] inside a
    subsection that expects one entry. *)
Definition oneFieldPDF : File :=
  paddedFile ["xref"; "0 1"; "0000000017"; "trailer"; "/Size 1";
              "startxref"; "1025"; "%%EOF"].

(** A file whose only subsection starts at the largest [int]. *)
Definition maxNumberPDF : File :=
  paddedFile ["xref"; "9223372036854775807 2"; "0000000017 00000 n ";
              "0000000081 00000 n "; "trailer"; "/Size 2";
              "startxref"; "1025"; "%%EOF"].

(** A raw line that the scanner delivers whole. *)
Definition scannable (l : string) : bool :=
  noNewline l && (len l <? MaxScanTokenSize).

(** ** dumpAt and main *)

(** [io.ReadAll] over an [AtReader]: the reads are issued with the free
    space of a growing buffer, [sizes] being those successive amounts. *)
Fixpoint readAllSizes (sizes : list nat) (ar : AtReader) : string * option error :=
  match sizes with
  | [] => (EmptyString, None)
  | n :: rest =>
      let '((d, err), ar') := AtReader_Read ar n in
      match err with
      | Some EOF => (d, None)
      | Some e => (d, Some e)
      | None => let '(d', e') := readAllSizes rest ar' in (d ++ d', e')
      end
  end.

(** [dumpAt]: what is written to the standard error stream; the error of
    [io.ReadAll] is dropped. *)
Definition dumpAt (sizes : list nat) (r : File) (offset : Z) : string :=
  let atReader := NewAtReader r offset in
  let '(b, _) := readAllSizes sizes atReader in
  b.

(** The integer [strconv.Atoi] returns, also beside an error: zero on a
    syntax error, the nearest bound on a range error. *)
Definition AtoiValue (s : string) : Z :=
  match Atoi s with
  | inl v => v
  | inr (NumError _ _ ErrRange) =>
      if HasPrefix s "-" then min_int64 else max_int64
  | inr _ => 0
  end.

(** How a run of the program ends. *)
Inductive Outcome :=
| Exited (stdout : string)   (* main returns, exit status 0 *)
| Fatal (e : error)          (* log.Fatal(err), exit status 1 *)
| Crashed (p : panic).

Section Main.

(** What [pp.Println(tr)] writes, and [os.Open]. *)
Variable pp : Trailer -> string.
Variable open : string -> File + error.

(** [main] with [os.Args = args]; the size given by [Stat] is the length
    of the file. *)
Definition main (args : list string) : Outcome :=
  match at_index args 1 with
  | Panicked p => Crashed p
  | Done path =>
  match open path with
  | inr err => Fatal err
  | inl pdff =>
  let '(tr, err) := readTrailer pdff (len (contents pdff)) in
  match err with
  | Some e => Fatal e
  | None =>
  match at_index args 2 with
  | Panicked p => Crashed p
  | Done cmd =>
  if String.eqb cmd "show_trailer" then
    Exited (pp tr ++ Raw tr ++ nl)
  else if String.eqb cmd "show_xref_entry" then
    match ListXrefEntries tr with
    | Panicked p => Crashed p
    | Done (_, Some e) => Fatal e
    | Done (entries, None) =>
    match at_index args 3 with
    | Panicked p => Crashed p
    | Done a3 =>
    let entryN := AtoiValue a3 in
    let entryN :=
      if entryN =? -1 then Z.of_nat (List.length entries) - 1 else entryN in
    match findXrefEntry entries entryN 0 with
    | (_, Some e) => Fatal e
    | (entry, None) =>
    match readEntry entry pdff with
    | (_, Some e) => Fatal e
    | (b, None) => Exited b
    end end end end
  else Exited EmptyString
  end end end end.

End Main.

(** ** Writing an xref table *)

Fixpoint isDigits (s : string) : bool :=
  match s with
  | EmptyString => true
  | String c r =>
      match digitVal c with
      | Some _ => isDigits r
      | None => false
      end
  end.

Definition digitChar (d : Z) : ascii := ascii_of_nat (48 + Z.to_nat d).

(** [dec w v]: the [w] low decimal digits of [v], most significant first. *)
Fixpoint dec (w : nat) (v : Z) : string :=
  match w with
  | O => EmptyString
  | S k => dec k (v / 10) ++ String (digitChar (v mod 10)) EmptyString
  end.

Fixpoint ndigits (fuel : nat) (v : Z) : nat :=
  match fuel with
  | O => 1%nat
  | S k => if v <? 10 then 1%nat else S (ndigits k (v / 10))
  end.

(** The decimal notation of [0 <= v < 10^19], without leading zeros. *)
Definition decimal (v : Z) : string := dec (ndigits 18 v) v.

(** The 20-byte entry line of [e], its newline apart:
    [nnnnnnnnnn ggggg n ]. *)
Definition entryLine (e : XrefEntry) : string :=
  dec 10 (ByteOffset e) ++ " " ++ dec 5 (Generation e) ++ " "
  ++ (if InUse e then "n" else "f") ++ " ".

Definition headerLine (first : Z) (n : nat) : string :=
  decimal first ++ " " ++ decimal (Z.of_nat n).

(** A subsection: its first object number and its entries. *)
Definition Subsection : Type := Z * list XrefEntry.

Definition subsectionLines (sub : Subsection) : list string :=
  headerLine (fst sub) (List.length (snd sub)) :: map entryLine (snd sub).

Definition tableLines (subs : list Subsection) : list string :=
  List.concat (map subsectionLines subs).

(** The entries numbered from [first] on. *)
Fixpoint renumber (first : Z) (es : list XrefEntry) : list XrefEntry :=
  match es with
  | [] => []
  | e :: r => setNumber e first :: renumber (first + 1) r
  end.

Definition tableEntries (subs : list Subsection) : list XrefEntry :=
  List.concat (map (fun sub => renumber (fst sub) (snd sub)) subs).

Definition entryInRange (e : XrefEntry) : Prop :=
  0 <= ByteOffset e < 10 ^ 10 /\ 0 <= Generation e < 10 ^ 5.

Definition subsectionInRange (sub : Subsection) : Prop :=
  0 <= fst sub
  /\ fst sub + Z.of_nat (List.length (snd sub)) <= max_int64
  /\ Forall entryInRange (snd sub).

Definition matchesEntry (number generation : Z) (e : XrefEntry) : Prop :=
  Number e = number /\ Generation e = generation.

(** Two trailers that agree in everything but the file they hold. *)
Definition sameButFile (a b : Trailer) : Prop :=
  StartXref a = StartXref b /\ Size a = Size b /\ Raw a = Raw b.

(** * Properties *)

(** ** Byte strings and machine integers *)

Lemma wrap64_small (z : Z) :
  min_int64 <= z <= max_int64 -> wrap64 z = z.
Proof.
  unfold min_int64, max_int64, wrap64. intros H.
  rewrite Z.mod_small by lia. lia.
Qed.

Lemma append_nil_r (s : string) : s ++ EmptyString = s.
Proof. induction s; simpl; congruence. Qed.

Lemma append_assoc (a b c : string) : (a ++ b) ++ c = a ++ (b ++ c).
Proof. induction a; simpl; congruence. Qed.

Lemma length_append (a b : string) :
  String.length (a ++ b) = (String.length a + String.length b)%nat.
Proof. induction a; simpl; congruence. Qed.

Lemma drop_nil (n : nat) : drop n EmptyString = EmptyString.
Proof. destruct n; reflexivity. Qed.

Lemma drop_app_length (a b : string) : drop (String.length a) (a ++ b) = b.
Proof. induction a; simpl; auto. Qed.

Lemma take_drop_id (n : nat) (s : string) : take n s ++ drop n s = s.
Proof.
  revert s. induction n; intros [|c r]; simpl; auto. now rewrite IHn.
Qed.

Lemma drop_drop (m n : nat) (s : string) : drop n (drop m s) = drop (m + n) s.
Proof.
  revert s. induction m; intros s; simpl; auto.
  destruct s; simpl; auto using drop_nil.
Qed.

Lemma length_drop (n : nat) (s : string) :
  String.length (drop n s) = (String.length s - n)%nat.
Proof. revert s. induction n; intros [|c r]; simpl; auto. Qed.

Lemma length_take (n : nat) (s : string) :
  String.length (take n s) = Nat.min n (String.length s).
Proof. revert s. induction n; intros [|c r]; simpl; auto. Qed.

Lemma take_all (n : nat) (s : string) :
  (String.length s <= n)%nat -> take n s = s.
Proof.
  revert s. induction n; intros [|c r]; simpl; intros H; auto; try lia.
  f_equal. apply IHn. lia.
Qed.

(** ** The offset reader delivers the file from its offset on *)

Lemma readAll_nonneg (f : File) (chunk : nat) :
  (0 < chunk)%nat ->
  forall (fuel : nat) (off : Z),
    0 <= off ->
    (String.length (drop (Z.to_nat off) (contents f)) < fuel)%nat ->
    readAll fuel chunk (mkAtReader f off)
    = (drop (Z.to_nat off) (contents f), None).
Proof.
  intros Hc. induction fuel as [|k IH]; intros off Hoff Hlen; [lia|].
  simpl. unfold AtReader_Read, File_ReadAt. simpl.
  destruct (off <? 0) eqn:E; [apply Z.ltb_lt in E; lia|].
  set (s := drop (Z.to_nat off) (contents f)) in *.
  destruct (String.length (take chunk s) <? chunk)%nat eqn:L.
  - apply Nat.ltb_lt in L. rewrite length_take in L.
    rewrite take_all by lia. reflexivity.
  - apply Nat.ltb_ge in L. rewrite length_take in L.
    assert (Hd : String.length (take chunk s) = chunk)
      by (rewrite length_take; lia).
    unfold len. rewrite Hd.
    rewrite IH; try lia.
    + replace (Z.to_nat (off + Z.of_nat chunk)) with (Z.to_nat off + chunk)%nat by lia.
      rewrite <- drop_drop. fold s. now rewrite take_drop_id.
    + replace (Z.to_nat (off + Z.of_nat chunk)) with (Z.to_nat off + chunk)%nat by lia.
      rewrite <- drop_drop. fold s. rewrite length_drop. lia.
Qed.

Lemma AtReader_stream_nonneg (f : File) (off : Z) :
  0 <= off ->
  AtReader_stream (NewAtReader f off) = (drop (Z.to_nat off) (contents f), None).
Proof.
  intros H. unfold AtReader_stream, NewAtReader. simpl ar_ra.
  apply readAll_nonneg; try lia.
  rewrite length_drop. lia.
Qed.

Lemma AtReader_stream_neg (f : File) (off : Z) :
  off < 0 ->
  AtReader_stream (NewAtReader f off) = (EmptyString, Some ErrNegativeOffset).
Proof.
  intros H. unfold AtReader_stream, NewAtReader. simpl.
  unfold AtReader_Read, File_ReadAt. simpl.
  destruct (off <? 0) eqn:E; [reflexivity|apply Z.ltb_ge in E; lia].
Qed.

(** ** Scanning one line *)

Lemma scanFrom_line (l : string) :
  forall (acc : string) (n : Z) (rest : string),
    noNewline l = true ->
    n + len l < MaxScanTokenSize ->
    scanFrom acc n (l ++ nl ++ rest)
    = (dropCR (acc ++ l) :: fst (scanFrom EmptyString 0 rest),
       snd (scanFrom EmptyString 0 rest)).
Proof.
  induction l as [|c l IH]; intros acc n rest Hnl Hlen.
  - simpl. rewrite append_nil_r.
    destruct (scanFrom EmptyString 0 rest); reflexivity.
  - simpl in Hnl. apply andb_prop in Hnl as [Hc Hl].
    apply negb_true_iff in Hc.
    unfold len in Hlen. simpl String.length in Hlen.
    change (String c l ++ nl ++ rest) with (String c (l ++ nl ++ rest)).
    cbn [scanFrom]. rewrite Hc.
    destruct (MaxScanTokenSize <=? n + 1) eqn:E.
    + apply Z.leb_le in E. lia.
    + rewrite IH; auto.
      * now rewrite append_assoc.
      * unfold len. lia.
Qed.

(** ** findXrefEntry *)

(** C7. [findXrefEntry] returns the first entry, in list order, whose
    object number and generation both equal the requested pair; when no
    entry of the list matches it returns the zero entry together with the
    error "no entry found".  The function is total: it yields one of these
    two results on every list. *)
Theorem findXrefEntry_first_match :
  forall (number generation : Z),
    (forall (pre : list XrefEntry) (ent : XrefEntry) (post : list XrefEntry),
        (forall x, In x pre ->
                   ~ (Number x = number /\ Generation x = generation)) ->
        Number ent = number ->
        Generation ent = generation ->
        findXrefEntry (pre ++ ent :: post) number generation = (ent, None))
    /\
    (forall (es : list XrefEntry),
        (forall x, In x es ->
                   ~ (Number x = number /\ Generation x = generation)) ->
        findXrefEntry es number generation
        = (zeroXrefEntry, Some (ErrNew "no entry found"))).
Proof.
  intros number generation.
  assert (Hmiss : forall x,
             ~ (Number x = number /\ Generation x = generation) ->
             (Number x =? number) && (Generation x =? generation) = false).
  { intros x Hx. apply andb_false_iff.
    destruct (Z.eqb_spec (Number x) number); auto.
    destruct (Z.eqb_spec (Generation x) generation); auto.
    exfalso. auto. }
  split.
  - induction pre as [|p pre IH]; intros ent post Hpre Hn Hg; simpl.
    + rewrite Hn, Hg, !Z.eqb_refl. reflexivity.
    + rewrite Hmiss by (apply Hpre; now left).
      apply IH; auto. intros x Hx. apply Hpre. now right.
  - induction es as [|e es IH]; intros Hes; simpl.
    + reflexivity.
    + rewrite Hmiss by (apply Hes; now left).
      apply IH. intros x Hx. apply Hes. now right.
Qed.

Lemma findXrefEntry_first_match_witness :
  findXrefEntry
    ([mkXrefEntry 9 4 0 true] ++
     mkXrefEntry 17 5 0 true :: [mkXrefEntry 81 5 0 false]) 5 0
  = (mkXrefEntry 17 5 0 true, None)
  /\ findXrefEntry [mkXrefEntry 9 4 0 true; mkXrefEntry 17 5 1 true] 5 0
     = (zeroXrefEntry, Some (ErrNew "no entry found")).
Proof.
  split.
  - apply (proj1 (findXrefEntry_first_match 5 0)).
    + intros x [Hx|[]] [Hn _]. subst x. simpl in Hn. lia.
    + reflexivity.
    + reflexivity.
  - apply (proj2 (findXrefEntry_first_match 5 0)).
    intros x [Hx|[Hx|[]]] [Hn Hg]; subst x; simpl in *; lia.
Defined.

(** A line of [MaxScanTokenSize] bytes or more stops the scan. *)
Lemma scanFrom_too_long (l : string) :
  forall (acc : string) (n : Z) (rest : string),
    noNewline l = true ->
    n < MaxScanTokenSize <= n + len l ->
    scanFrom acc n (l ++ rest) = ([], Some ErrTooLong).
Proof.
  induction l as [|c l IH]; intros acc n rest Hnl Hlen.
  - unfold len in Hlen. simpl in Hlen. lia.
  - simpl in Hnl. apply andb_prop in Hnl as [Hc Hl].
    apply negb_true_iff in Hc.
    unfold len in Hlen. simpl String.length in Hlen.
    change (String c l ++ rest) with (String c (l ++ rest)).
    cbn [scanFrom]. rewrite Hc.
    destruct (MaxScanTokenSize <=? n + 1) eqn:E; [reflexivity|].
    apply Z.leb_gt in E. apply IH; auto. unfold len. lia.
Qed.

Example scanFrom_line_endings :
  NewScanner ("a" ++ String cr nl ++ "b" ++ nl ++ nl ++ "c", None)
  = mkScanner ["a"; "b"; ""; "c"] None.
Proof. reflexivity. Qed.

Example SplitN_entry_line :
  SplitN "0000000017 00000 n " 3 = ["0000000017"; "00000"; "n "]
  /\ SplitN "3 2" 3 = ["3"; "2"]
  /\ SplitN "trailer" 3 = ["trailer"]
  /\ SplitN "<< /Size 3 /Root 1 0 R >>" 3 = ["<<"; "/Size"; "3 /Root 1 0 R >>"].
Proof. repeat split. Qed.

Example ParseInt_samples :
  ParseInt "37" = inl 37
  /\ ParseInt "-5" = inl (-5)
  /\ ParseInt "+7" = inl 7
  /\ ParseInt "" = inr (NumError "ParseInt" "" ErrSyntax)
  /\ ParseInt "37 >>" = inr (NumError "ParseInt" "37 >>" ErrSyntax)
  /\ ParseInt "9223372036854775808"
     = inr (NumError "ParseInt" "9223372036854775808" ErrRange)
  /\ ParseInt "-9223372036854775808" = inl min_int64.
Proof. repeat split. Qed.

Lemma scanFrom_first_line (l rest : string) :
  noNewline l = true ->
  len l < MaxScanTokenSize ->
  scanFrom EmptyString 0 (l ++ nl ++ rest)
  = (dropCR l :: fst (scanFrom EmptyString 0 rest),
     snd (scanFrom EmptyString 0 rest)).
Proof.
  intros Hnl Hlen. rewrite scanFrom_line; auto.
Qed.

Lemma NewScanner_first_line (l rest : string) (rerr : option error) :
  noNewline l = true ->
  len l < MaxScanTokenSize ->
  NewScanner (l ++ nl ++ rest, rerr)
  = mkScanner (dropCR l :: toks (NewScanner (rest, rerr)))
              (ferr (NewScanner (rest, rerr))).
Proof.
  intros Hnl Hlen. unfold NewScanner.
  rewrite scanFrom_first_line by assumption.
  destruct (scanFrom EmptyString 0 rest) as [ts e]. reflexivity.
Qed.

(** ** readEntry *)

Lemma entryLoop_no_endobj (ts : list string) :
  forall b : string,
    (forall x, In x ts -> EqualFold x "endobj" = false) ->
    entryLoop ts b = (b ++ lines ts, true).
Proof.
  induction ts as [|t ts IH]; intros b H.
  - simpl. now rewrite append_nil_r.
  - cbn [entryLoop lines]. rewrite (H t) by now left.
    rewrite IH by (intros x Hx; apply H; now right).
    now rewrite !append_assoc.
Qed.

(** C2. Whatever precedes and follows it in the file, an entry whose byte
    offset points at the bytes of [catalogObject] is extracted as exactly
    those bytes, without error; and whenever the first scanned line at the
    entry's offset (the empty text when nothing could be scanned) does not
    end with [obj], [readEntry] returns the error "should start with a
    reference object" and no bytes. *)
Theorem readEntry_catalog_and_bad_start :
  (forall (pre post : string) (ent : XrefEntry),
      ByteOffset ent = len pre ->
      readEntry ent (mkFile (pre ++ catalogObject ++ post))
      = (catalogObject, None))
  /\
  (forall (ent : XrefEntry) (f : File),
      HasSuffix
        (Text (toks (NewScanner (AtReader_stream (NewAtReader f (ByteOffset ent))))))
        "obj" = false ->
      readEntry ent f
      = (EmptyString, Some (ErrNew "should start with a reference object"))).
Proof.
  split.
  - intros pre post ent Hoff. unfold readEntry.
    rewrite Hoff, AtReader_stream_nonneg by (unfold len; lia).
    unfold len. rewrite Nat2Z.id. cbn [contents]. rewrite drop_app_length.
    unfold catalogObject. rewrite !append_assoc.
    rewrite !NewScanner_first_line by (vm_compute; reflexivity).
    reflexivity.
  - intros ent f H. unfold readEntry. rewrite H. reflexivity.
Qed.

Lemma readEntry_catalog_and_bad_start_witness :
  readEntry (mkXrefEntry 9 5 0 true)
    (mkFile (("%PDF-1.4" ++ nl) ++ catalogObject ++ "xref"))
  = (catalogObject, None)
  /\ readEntry (mkXrefEntry 0 5 0 true) (mkFile ("%PDF-1.4" ++ nl ++ catalogObject))
     = (EmptyString, Some (ErrNew "should start with a reference object")).
Proof.
  split.
  - apply (proj1 readEntry_catalog_and_bad_start). reflexivity.
  - apply (proj2 readEntry_catalog_and_bad_start). vm_compute. reflexivity.
Defined.

(** A line of [MaxScanTokenSize] bytes or more right after the start line
    ends the scan with [ErrTooLong], which [readEntry] returns wrapped,
    whether or not an [endobj] line follows. *)
Lemma readEntry_long_line (pre l rest : string) (ent : XrefEntry) :
  ByteOffset ent = len pre ->
  noNewline l = true ->
  MaxScanTokenSize <= len l ->
  readEntry ent (mkFile (pre ++ "5 0 obj" ++ nl ++ l ++ rest))
  = (EmptyString, Some (ErrWrap "unable to read entry" ErrTooLong)).
Proof.
  intros Hoff Hnl Hlen.
  assert (Hsc : NewScanner
                  (AtReader_stream
                     (NewAtReader (mkFile (pre ++ "5 0 obj" ++ nl ++ l ++ rest))
                                  (ByteOffset ent)))
                = mkScanner ["5 0 obj"] (Some ErrTooLong)).
  { rewrite Hoff, AtReader_stream_nonneg by (unfold len; lia).
    unfold len at 1. rewrite Nat2Z.id. cbn [contents]. rewrite drop_app_length.
    rewrite NewScanner_first_line by reflexivity.
    unfold NewScanner.
    rewrite scanFrom_too_long by (auto; unfold MaxScanTokenSize in *; lia).
    reflexivity. }
  unfold readEntry. rewrite Hsc. reflexivity.
Qed.

(** ** readTrailer *)

(** A buffer shorter than [MaxScanTokenSize] is scanned without error. *)
Lemma scanFrom_short (data : string) :
  forall (acc : string) (n : Z),
    0 <= n ->
    n + len data < MaxScanTokenSize ->
    snd (scanFrom acc n data) = None.
Proof.
  induction data as [|c r IH]; intros acc n Hn Hlen.
  - reflexivity.
  - unfold len in Hlen. simpl String.length in Hlen.
    cbn [scanFrom]. destruct (isNL c).
    + specialize (IH EmptyString 0). unfold len in IH.
      destruct (scanFrom EmptyString 0 r) as [ts e]. simpl in *.
      apply IH; lia.
    + destruct (MaxScanTokenSize <=? n + 1) eqn:E.
      * apply Z.leb_le in E. lia.
      * apply IH; unfold len; lia.
Qed.

Lemma NewScanner_short (data : string) :
  len data < MaxScanTokenSize ->
  ferr (NewScanner (data, None)) = None.
Proof.
  intros H. unfold NewScanner.
  pose proof (scanFrom_short data EmptyString 0 ltac:(lia) ltac:(lia)) as E.
  destruct (scanFrom EmptyString 0 data) as [ts e]. simpl in *. now subst.
Qed.

Lemma trailerBlock_length (f : File) :
  (String.length (trailerBlock f) <= 1024)%nat.
Proof.
  unfold trailerBlock.
  destruct (0 <? _); rewrite ?length_drop; lia.
Qed.

Lemma readTrailer_long (f : File) :
  1024 <= len (contents f) <= max_int64 ->
  readTrailer f (len (contents f))
  = trailerLoop (mkTrailer 0 0 (trailerBlock f) f)
                (toks (NewScanner (trailerBlock f, None))).
Proof.
  intros H. unfold readTrailer, File_ReadAt.
  rewrite wrap64_small by (unfold min_int64, max_int64 in *; lia).
  destruct (len (contents f) - 1024 <? 0) eqn:E; [apply Z.ltb_lt in E; lia|].
  unfold len in *.
  replace (Z.to_nat (Z.of_nat (String.length (contents f)) - 1024))
    with (String.length (contents f) - 1024)%nat by lia.
  set (tail := drop (String.length (contents f) - 1024) (contents f)).
  assert (Ht : String.length tail = 1024%nat)
    by (unfold tail; rewrite length_drop; lia).
  rewrite (take_all 1024 tail) by lia.
  rewrite Ht, Nat.ltb_irrefl, Nat.sub_diag.
  cbn [zeros]. rewrite append_nil_r.
  pose proof (trailerBlock_length f) as Hb. revert Hb.
  unfold trailerBlock. fold tail.
  set (buf := if 0 <? findTrailerInBlock tail
              then drop (Z.to_nat (findTrailerInBlock tail)) tail else tail).
  intros Hb. unfold setRaw. cbn [StartXref Size ra].
  rewrite NewScanner_short by (unfold len, MaxScanTokenSize; lia).
  destruct (trailerLoop _ _) as [tr [e|]]; reflexivity.
Qed.

(** C3. A file shorter than 1024 bytes makes [readTrailer] ask the file
    for a read at the negative offset [size - 1024]; the file refuses it,
    and [readTrailer] returns that error with an empty trailer instead of
    reading the whole file as the tail block. *)
Theorem readTrailer_short_file_fails :
  forall f : File,
    len (contents f) < 1024 ->
    readTrailer f (len (contents f))
    = (mkTrailer 0 0 EmptyString f, Some ErrNegativeOffset).
Proof.
  intros f H. unfold readTrailer, File_ReadAt.
  rewrite wrap64_small by (unfold min_int64, max_int64, len in *; lia).
  destruct (len (contents f) - 1024 <? 0) eqn:E.
  - reflexivity.
  - apply Z.ltb_ge in E. lia.
Qed.

Lemma readTrailer_short_file_fails_witness :
  len (contents smallPDF) = 129
  /\ readTrailer smallPDF 129 = (mkTrailer 0 0 EmptyString smallPDF, Some ErrNegativeOffset).
Proof.
  split.
  - reflexivity.
  - apply (readTrailer_short_file_fails smallPDF). vm_compute. reflexivity.
Defined.

(** The loop of [readTrailer] never touches [Raw] and [ra]. *)
Lemma trailerLoop_Raw (n : nat) :
  forall (ts : list string) (tr : Trailer),
    (List.length ts <= n)%nat ->
    Raw (fst (trailerLoop tr ts)) = Raw tr
    /\ ra (fst (trailerLoop tr ts)) = ra tr.
Proof.
  induction n as [|n IH]; intros [|l rest] tr Hlen; simpl in Hlen;
    try lia; try (split; reflexivity).
  cbn [trailerLoop]. destruct (HasPrefix l "startxref").
  - destruct rest as [|t rest'].
    + split; reflexivity.
    + destruct (ParseInt t) as [xref|err]; [|split; reflexivity].
      destruct (IH rest' (setStartXref tr xref)) as [H1 H2];
        [simpl in Hlen; lia|].
      rewrite H1, H2. split; reflexivity.
  - destruct (0 <=? Index l (sizeEntry ++ " ")); [|apply IH; lia].
    destruct (ParseInt _) as [size|err]; [|split; reflexivity].
    destruct (size =? 0); [split; reflexivity|].
    destruct (IH rest (setSize tr size)) as [H1 H2]; [lia|].
    rewrite H1, H2. split; reflexivity.
Qed.

Lemma readTrailer_Raw (f : File) :
  1024 <= len (contents f) <= max_int64 ->
  Raw (fst (readTrailer f (len (contents f)))) = trailerBlock f.
Proof.
  intros H. rewrite readTrailer_long by assumption.
  now rewrite (proj1 (trailerLoop_Raw _ _ _ (le_n _))).
Qed.

Lemma trailerLoop_Size_line (tr : Trailer) (l : string) (rest : list string) :
  HasPrefix l "startxref" = false ->
  0 <= Index l "/Size " ->
  trailerLoop tr (l :: rest)
  = match ParseInt (sizeText l) with
    | inl v =>
        if v =? 0 then (tr, Some (ErrWrapNil "unable to parse /Size"))
        else trailerLoop (setSize tr v) rest
    | inr e => (tr, Some (ErrWrap "unable to parse /Size" e))
    end.
Proof.
  intros Hp Hi. cbn [trailerLoop]. rewrite Hp.
  change (sizeEntry ++ " ") with "/Size ".
  change (len sizeEntry) with 5. unfold sizeText.
  replace (Index l "/Size " + 5 + 1) with (Index l "/Size " + 6) by lia.
  destruct (0 <=? Index l "/Size ") eqn:E; [reflexivity|].
  apply Z.leb_gt in E. lia.
Qed.

Lemma trailerLoop_app_plain (pre ts : list string) (tr : Trailer) :
  (forall x, In x pre -> plainLine x) ->
  trailerLoop tr (pre ++ ts) = trailerLoop tr ts.
Proof.
  induction pre as [|p pre IH]; intros H; [reflexivity|].
  destruct (H p (or_introl eq_refl)) as [Hp Hi].
  cbn [app trailerLoop]. rewrite Hp.
  change (sizeEntry ++ " ") with "/Size ".
  destruct (0 <=? Index p "/Size ") eqn:E; [apply Z.leb_le in E; lia|].
  apply IH. intros x Hx. apply H. now right.
Qed.

Lemma trailerLoop_plain (ts : list string) (tr : Trailer) :
  (forall x, In x ts -> plainLine x) ->
  trailerLoop tr ts = (tr, None).
Proof.
  intros H. rewrite <- (app_nil_r ts).
  now rewrite trailerLoop_app_plain.
Qed.


Lemma plainLineb_spec (ts : list string) :
  forallb plainLineb ts = true -> forall x, In x ts -> plainLine x.
Proof.
  intros H x Hx. rewrite forallb_forall in H. specialize (H x Hx).
  unfold plainLineb in H. apply andb_prop in H as [H1 H2].
  apply negb_true_iff in H1. apply Z.ltb_lt in H2. now split.
Qed.








(** ** The scanning loop of ListXrefEntries *)

Lemma wrap64_add_wrap (a b : Z) : wrap64 (a + wrap64 b) = wrap64 (a + b).
Proof.
  unfold wrap64.
  replace (a + ((b + 2 ^ 63) mod 2 ^ 64 - 2 ^ 63) + 2 ^ 63)
    with (a + (b + 2 ^ 63) mod 2 ^ 64) by lia.
  rewrite Z.add_mod_idemp_r by lia.
  now replace (a + (b + 2 ^ 63)) with (a + b + 2 ^ 63) by lia.
Qed.

Lemma digitVal_range (c : ascii) (d : Z) : digitVal c = Some d -> 0 <= d <= 9.
Proof.
  unfold digitVal.
  destruct ((48 <=? nat_of_ascii c)%nat && (nat_of_ascii c <=? 57)%nat) eqn:E;
    [|discriminate].
  apply andb_prop in E as [E1 E2].
  apply Nat.leb_le in E1, E2. intros [= <-]. lia.
Qed.

Lemma parseDigits_nonneg (s : string) :
  forall acc v : Z, 0 <= acc -> parseDigits s acc = inl v -> 0 <= v.
Proof.
  induction s as [|c r IH]; intros acc v Hacc; simpl.
  - intros [= <-]. assumption.
  - destruct (digitVal c) as [d|] eqn:D; [|discriminate].
    apply digitVal_range in D.
    destruct (max_uint64 <? acc * 10 + d); [discriminate|].
    apply IH. lia.
Qed.

(** A successful [Atoi] or [ParseInt] yields an [int64]. *)
Lemma parseInt64_range (fn s : string) (v : Z) :
  parseInt64 fn s = inl v -> min_int64 <= v <= max_int64.
Proof.
  unfold parseInt64. destruct s as [|c r]; [discriminate|].
  set (s' := if (Ascii.eqb c "+" || Ascii.eqb c "-")%bool then r else String c r).
  destruct (ParseUint s') as [un|[|]] eqn:P; try discriminate.
  assert (Hun : 0 <= un).
  { unfold ParseUint in P. destruct s'; [discriminate|].
    eapply parseDigits_nonneg; [|exact P]. lia. }
  unfold min_int64, max_int64.
  destruct (Ascii.eqb c "-"); cbn [negb andb].
  - destruct (2 ^ 63 <? un) eqn:E; [discriminate|].
    apply Z.ltb_ge in E. intros [= <-]. lia.
  - destruct (2 ^ 63 <=? un) eqn:E; [discriminate|].
    apply Z.leb_gt in E. intros [= <-]. lia.
Qed.

Lemma xrefLoop_app (a b : list string) (size : Z) :
  forall st : LoopState,
    xrefLoop size (a ++ b) st
    = (r <- xrefLoop size a st;;
       match r with
       | Exhausted st' => xrefLoop size b st'
       | other => Done other
       end).
Proof.
  induction a as [|l a IH]; intros st; [reflexivity|].
  cbn [app xrefLoop]. destruct (size =? total st); [reflexivity|].
  destruct (xrefBody st l) as [[st'|e]|p]; cbn [bind]; auto.
Qed.

(** What one pass through the loop body can do to the loop variables. *)
Lemma xrefBody_inv (st : LoopState) (l : string) (st' : LoopState) :
  xrefBody st l = Done (inl st') ->
  (exists a b,
      SplitN l 3 = [a; b] /\ Atoi a = inl (offset st')
      /\ Atoi b = inl (count st') /\ pos st' = 0
      /\ entries st' = entries st /\ total st' = total st)
  \/ (List.length (SplitN l 3) <> 2%nat /\ pos st = count st /\ st' = st)
  \/ (List.length (SplitN l 3) <> 2%nat /\ pos st <> count st
      /\ exists e,
          Number e = wrap64 (offset st + pos st)
          /\ st' = mkLoopState (entries st ++ [e])%list (offset st)
                     (wrap64 (pos st + 1)) (count st) (wrap64 (total st + 1))).
Proof.
  unfold xrefBody.
  destruct (List.length (SplitN l 3) =? 2)%nat eqn:E.
  - apply Nat.eqb_eq in E.
    destruct (SplitN l 3) as [|a [|b [|c r]]]; try discriminate.
    cbn [at_index nth_error bind].
    destruct (Atoi a) as [off|err] eqn:A; [|discriminate].
    destruct (Atoi b) as [cnt|err] eqn:B; [|discriminate].
    intros [= <-]. left. exists a, b. cbn. repeat split; auto.
  - apply Nat.eqb_neq in E. intros H. right.
    destruct (pos st =? count st) eqn:P.
    + apply Z.eqb_eq in P. injection H as <-. left. auto.
    + apply Z.eqb_neq in P. right. split; [assumption|]. split; [assumption|].
      destruct (readXrefEntry (SplitN l 3)) as [[xe [e|]]|p];
        cbn [bind] in H; try discriminate.
      injection H as <-. eexists. split; [|reflexivity]. reflexivity.
Qed.

Lemma xrefBody_header (st : LoopState) (l a b : string) (first cnt : Z) :
  SplitN l 3 = [a; b] -> Atoi a = inl first -> Atoi b = inl cnt ->
  xrefBody st l = Done (inl (mkLoopState (entries st) first 0 cnt (total st))).
Proof.
  intros Hs Ha Hb. unfold xrefBody. rewrite Hs.
  cbn [List.length Nat.eqb at_index nth_error bind]. now rewrite Ha, Hb.
Qed.

(** Entries appended while no subsection header is met are numbered
    consecutively from the header's first object number. *)
Lemma xrefLoop_numbering (size : Z) (body : list string) :
  forall (st : LoopState) (k : nat) (fin : LoopEnd) (st2 : LoopState),
    (forall l, In l body -> List.length (SplitN l 3) <> 2%nat) ->
    pos st = wrap64 (Z.of_nat k) ->
    xrefLoop size body st = Done fin ->
    endState fin = Some st2 ->
    exists es,
      entries st2 = (entries st ++ es)%list
      /\ forall i e, nth_error es i = Some e ->
                     Number e = wrap64 (offset st + Z.of_nat (k + i)).
Proof.
  induction body as [|l body IH]; intros st k fin st2 Hb Hpos Hrun Hfin.
  - injection Hrun as <-. injection Hfin as <-.
    exists []. rewrite app_nil_r. split; [reflexivity|].
    intros [|i] e; discriminate.
  - cbn [xrefLoop] in Hrun. destruct (size =? total st).
    + injection Hrun as <-. injection Hfin as <-.
      exists []. rewrite app_nil_r. split; [reflexivity|].
      intros [|i] e; discriminate.
    + destruct (xrefBody st l) as [[st'|e]|p] eqn:B; cbn [bind] in Hrun;
        try discriminate.
      2:{ injection Hrun as <-. discriminate. }
      assert (Hb' : forall x, In x body -> List.length (SplitN x 3) <> 2%nat)
        by (intros x Hx; apply Hb; now right).
      destruct (xrefBody_inv _ _ _ B)
        as [(a & b & Hs & _)|[(_ & _ & ->)|(_ & _ & e & He & ->)]].
      * exfalso. apply (Hb l); [now left|]. now rewrite Hs.
      * eapply IH; eauto.
      * assert (Hp : wrap64 (pos st + 1) = wrap64 (Z.of_nat (S k))).
        { rewrite Hpos, (Z.add_comm (wrap64 _)), wrap64_add_wrap. f_equal. lia. }
        destruct (IH (mkLoopState (entries st ++ [e]) (offset st)
                        (wrap64 (pos st + 1)) (count st) (wrap64 (total st + 1)))
                     (S k) fin st2 Hb' Hp Hrun Hfin) as (es & Hes & Hnum).
        cbn [entries offset] in Hes, Hnum.
        exists (e :: es). split; [now rewrite Hes, <- app_assoc|].
        intros [|i] x Hx.
        -- injection Hx as <-. rewrite He, Hpos, wrap64_add_wrap.
           f_equal. lia.
        -- rewrite (Hnum i x Hx). f_equal. lia.
Qed.

(** C1, as stated, fails where the sum leaves the range of [int]: the
    subsection header [9223372036854775807 2] is accepted, and its second
    entry is numbered -9223372036854775808, not 9223372036854775808. *)
Lemma ListXrefEntries_number_wraps :
  let r := readTrailer maxNumberPDF (len (contents maxNumberPDF)) in
  snd r = None
  /\ ListXrefEntries (fst r)
     = Done ([mkXrefEntry 17 9223372036854775807 0 true;
              mkXrefEntry 81 (-9223372036854775808) 0 true], None)
  /\ -9223372036854775808 <> 9223372036854775807 + 1.
Proof. split; [|split]; [vm_compute; reflexivity ..|lia]. Qed.

(** C1, amended. Take any table, any subsection header [h] that the loop
    reaches (after the lines [pre]) and the lines [body] that follow it up
    to the next header.  The entries appended while [body] is scanned are
    numbered by the header's first object number plus their zero-based
    position in the subsection, computed in 64-bit [int] arithmetic; the
    number is the exact sum whenever that sum does not exceed 2^63-1.  For
    the table with subsections [0 1] and [3 2] the object numbers are 0, 3
    and 4 in that order. *)
Theorem ListXrefEntries_numbering :
  (forall (size : Z) (pre : list string) (h a b : string) (first cnt : Z)
          (body : list string) (st1 : LoopState) (fin : LoopEnd)
          (st2 : LoopState),
      xrefLoop size pre initLoop = Done (Exhausted st1) ->
      SplitN h 3 = [a; b] -> Atoi a = inl first -> Atoi b = inl cnt ->
      forallb (fun l => negb (isSubsection l)) body = true ->
      xrefLoop size (pre ++ h :: body) initLoop = Done fin ->
      endState fin = Some st2 ->
      exists es,
        entries st2 = (entries st1 ++ es)%list
        /\ forall i e,
            nth_error es i = Some e ->
            Number e = wrap64 (first + Z.of_nat i)
            /\ (first + Z.of_nat i <= max_int64 ->
                Number e = first + Z.of_nat i))
  /\ ListXrefEntries (mkTrailer 0 3 EmptyString twoSubsections)
     = Done ([mkXrefEntry 0 0 65535 false; mkXrefEntry 17 3 0 true;
              mkXrefEntry 81 4 0 true], None).
Proof.
  split; [|vm_compute; reflexivity].
  intros size pre h a b first cnt body st1 fin st2 Hpre Hs Ha Hb Hbody Hrun Hfin.
  assert (Hnum : exists es,
             entries st2 = (entries st1 ++ es)%list
             /\ forall i e, nth_error es i = Some e ->
                            Number e = wrap64 (first + Z.of_nat i)).
  { rewrite xrefLoop_app, Hpre in Hrun. cbn [bind xrefLoop] in Hrun.
    destruct (size =? total st1).
    - injection Hrun as <-. injection Hfin as <-.
      exists []. rewrite app_nil_r. split; [reflexivity|].
      intros [|i] e; discriminate.
    - rewrite (xrefBody_header st1 h a b first cnt Hs Ha Hb) in Hrun.
      cbn [bind] in Hrun.
      eapply (xrefLoop_numbering size body _ 0%nat fin st2) in Hrun; eauto.
      rewrite forallb_forall in Hbody. intros l Hl.
      specialize (Hbody l Hl). unfold isSubsection in Hbody.
      apply negb_true_iff, Nat.eqb_neq in Hbody. exact Hbody. }
  destruct Hnum as (es & Hes & Hnum). exists es. split; [exact Hes|].
  intros i e Hi. split; [now apply Hnum|].
  intros Hmax. rewrite (Hnum i e Hi). apply wrap64_small.
  pose proof (parseInt64_range _ _ _ Ha). lia.
Qed.

Lemma ListXrefEntries_numbering_witness :
  let pre := ["0 1"; "0000000000 65535 f "] in
  let body := ["0000000017 00000 n "; "0000000081 00000 n "] in
  let st1 := mkLoopState [mkXrefEntry 0 0 65535 false] 0 1 1 1 in
  let st2 :=
    mkLoopState [mkXrefEntry 0 0 65535 false; mkXrefEntry 17 3 0 true;
                 mkXrefEntry 81 4 0 true] 3 2 2 3 in
  exists es,
    entries st2 = (entries st1 ++ es)%list
    /\ forall i e,
        nth_error es i = Some e ->
        Number e = wrap64 (3 + Z.of_nat i)
        /\ (3 + Z.of_nat i <= max_int64 -> Number e = 3 + Z.of_nat i).
Proof.
  intros pre body st1 st2.
  apply (proj1 ListXrefEntries_numbering 3 pre "3 2" "3" "2" 3 2 body
               st1 (Exhausted st2) st2); reflexivity.
Defined.

Lemma SplitN_no_space (l : string) : cutSpace l = None -> SplitN l 3 = [l].
Proof. intros H. cbn [SplitN]. now rewrite H. Qed.

(** C4. What the code does on a line without any space, which splits into
    one piece.  Inside a subsection that still expects entries, a line
    that [ParseInt] accepts makes [readXrefEntry] index the second piece
    of a one-element slice: the program panics instead of reporting a
    parse error.  When the subsection is complete (or none was opened) the
    line is skipped and no error is reported either.  On [oneFieldPDF]
    the trailer is read without error and [ListXrefEntries] panics. *)
Theorem ListXrefEntries_one_field_line :
  (forall (size : Z) (st : LoopState) (l : string) (rest : list string) (v : Z),
      size <> total st -> pos st <> count st ->
      cutSpace l = None -> ParseInt l = inl v ->
      xrefLoop size (l :: rest) st = Panicked (IndexOutOfRange 1 1))
  /\
  (forall (size : Z) (st : LoopState) (l : string) (rest : list string),
      size <> total st -> pos st = count st ->
      cutSpace l = None ->
      xrefLoop size (l :: rest) st = xrefLoop size rest st)
  /\ (let r := readTrailer oneFieldPDF (len (contents oneFieldPDF)) in
      snd r = None /\ StartXref (fst r) = 1025 /\ Size (fst r) = 1
      /\ ListXrefEntries (fst r) = Panicked (IndexOutOfRange 1 1)).
Proof.
  split; [|split; [|vm_compute; repeat split; reflexivity]].
  - intros size st l rest v Hsz Hpos Hcut Hv. cbn [xrefLoop].
    apply Z.eqb_neq in Hsz, Hpos. rewrite Hsz.
    unfold xrefBody. rewrite (SplitN_no_space l Hcut).
    cbn [List.length Nat.eqb]. rewrite Hpos.
    unfold readXrefEntry. cbn [at_index nth_error bind]. rewrite Hv.
    reflexivity.
  - intros size st l rest Hsz Hpos Hcut. cbn [xrefLoop].
    apply Z.eqb_neq in Hsz. apply Z.eqb_eq in Hpos. rewrite Hsz.
    unfold xrefBody. rewrite (SplitN_no_space l Hcut).
    cbn [List.length Nat.eqb]. rewrite Hpos. reflexivity.
Qed.

Lemma ListXrefEntries_one_field_line_witness :
  xrefLoop 1 ["0000000017"; "trailer"] (mkLoopState [] 0 0 1 0)
  = Panicked (IndexOutOfRange 1 1)
  /\ xrefLoop 1 ["0000000017"; "0 1"; "0000000017 00000 n "] initLoop
     = xrefLoop 1 ["0 1"; "0000000017 00000 n "] initLoop.
Proof.
  split.
  - apply (proj1 ListXrefEntries_one_field_line 1 _ _ _ 17);
      (reflexivity || (cbn; lia)).
  - apply (proj1 (proj2 ListXrefEntries_one_field_line) 1);
      (reflexivity || (cbn; lia)).
Defined.

(** ** The Size bound *)





(** ** Entry lines before the first subsection header *)

Lemma lines_app (a b : list string) : lines (a ++ b) = lines a ++ lines b.
Proof.
  induction a as [|l a IH]; [reflexivity|].
  cbn [app lines]. now rewrite IH, !append_assoc.
Qed.

Lemma NewScanner_lines (pre : list string) (data : string) (rerr : option error) :
  (forall l, In l pre -> noNewline l = true /\ len l < MaxScanTokenSize) ->
  NewScanner (lines pre ++ data, rerr)
  = mkScanner (map dropCR pre ++ toks (NewScanner (data, rerr)))
              (ferr (NewScanner (data, rerr))).
Proof.
  induction pre as [|l pre IH]; intros H.
  - cbn [lines map app append]. now destruct (NewScanner (data, rerr)).
  - cbn [lines]. rewrite !append_assoc.
    destruct (H l (or_introl eq_refl)) as [H1 H2].
    rewrite NewScanner_first_line by assumption.
    rewrite IH by (intros x Hx; apply H; now right).
    reflexivity.
Qed.

Lemma xrefLoop_skip (size : Z) (pre rest : list string) (st : LoopState) :
  size <> total st ->
  pos st = count st ->
  (forall l, In l pre -> List.length (SplitN l 3) <> 2%nat) ->
  xrefLoop size (pre ++ rest) st = xrefLoop size rest st.
Proof.
  intros Hsz Hpos. induction pre as [|l pre IH]; intros H; [reflexivity|].
  cbn [app xrefLoop].
  pose proof (H l (or_introl eq_refl)) as Hl.
  apply Nat.eqb_neq in Hl.
  rewrite (proj2 (Z.eqb_neq _ _) Hsz).
  unfold xrefBody. rewrite Hl, (proj2 (Z.eqb_eq _ _) Hpos). cbn [bind].
  apply IH. intros x Hx. apply H. now right.
Qed.

Lemma threeFieldLine_spec (l : string) :
  threeFieldLine l = true ->
  noNewline l = true /\ len l < MaxScanTokenSize
  /\ List.length (SplitN (dropCR l) 3) = 3%nat.
Proof.
  unfold threeFieldLine. intros H.
  apply andb_prop in H as [H H3]. apply andb_prop in H as [H1 H2].
  apply Z.ltb_lt in H2. apply Nat.eqb_eq in H3. auto.
Qed.

(** C10. Entry lines that split into three fields (as every well-formed
    entry line does) and stand between the [xref] line and the first
    subsection header are passed over: after them the loop variables are
    still the initial ones (no entry, running total 0, no error), and
    [ListXrefEntries] returns what it returns on the same file without
    those lines; for a size of 0 the loop stops at the first of them and
    the result is the empty list without error. *)
Theorem ListXrefEntries_skips_leading_entries :
  forall (before : string) (pre : list string) (data : string)
         (size : Z) (raw : string),
    pre <> [] ->
    forallb threeFieldLine pre = true ->
    xrefLoop size (map dropCR pre) initLoop
    = Done (if size =? 0 then Broke initLoop else Exhausted initLoop)
    /\ ListXrefEntries
         (mkTrailer (len before) size raw
            (mkFile (before ++ "xref" ++ nl ++ lines pre ++ data)))
       = if size =? 0 then Done ([], None)
         else ListXrefEntries
                (mkTrailer (len before) size raw
                   (mkFile (before ++ "xref" ++ nl ++ data))).
Proof.
  intros before pre data size raw Hne Hpre.
  rewrite forallb_forall in Hpre.
  assert (Hscan : forall l, In l pre ->
                            noNewline l = true /\ len l < MaxScanTokenSize)
    by (intros l Hl; destruct (threeFieldLine_spec l (Hpre l Hl)) as (?&?&?); auto).
  assert (Hskip : forall l, In l (map dropCR pre) ->
                            List.length (SplitN l 3) <> 2%nat).
  { intros l Hl. apply in_map_iff in Hl as (x & <- & Hx).
    destruct (threeFieldLine_spec x (Hpre x Hx)) as (_ & _ & ->). lia. }
  assert (Hloop : forall rest,
             xrefLoop size (map dropCR pre ++ rest) initLoop
             = if size =? 0 then Done (Broke initLoop)
               else xrefLoop size rest initLoop).
  { intros rest. destruct (size =? 0) eqn:E.
    - destruct pre as [|p pre]; [contradiction|].
      cbn [map app xrefLoop initLoop total]. now rewrite E.
    - apply Z.eqb_neq in E. now apply xrefLoop_skip. }
  split.
  - rewrite <- (app_nil_r (map dropCR pre)), Hloop.
    now destruct (size =? 0).
  - unfold ListXrefEntries. cbn [ra StartXref Size].
    rewrite !AtReader_stream_nonneg by (unfold len; lia).
    unfold len. rewrite Nat2Z.id. cbn [contents]. rewrite !drop_app_length.
    rewrite !NewScanner_first_line by reflexivity.
    rewrite NewScanner_lines by assumption.
    cbn [toks ferr Text tl]. change (dropCR "xref") with "xref".
    rewrite String.eqb_refl. cbn [negb]. rewrite Hloop.
    now destruct (size =? 0).
Qed.

Lemma ListXrefEntries_skips_leading_entries_witness :
  let pre := ["0000000000 65535 f "; "0000000017 00000 n "] in
  let data := lines ["0 1"; "0000000081 00000 n "; "trailer"] in
  xrefLoop 1 (map dropCR pre) initLoop = Done (Exhausted initLoop)
  /\ ListXrefEntries
       (mkTrailer 9 1 EmptyString
          (mkFile (("%PDF-1.4" ++ nl) ++ "xref" ++ nl ++ lines pre ++ data)))
     = ListXrefEntries
         (mkTrailer 9 1 EmptyString
            (mkFile (("%PDF-1.4" ++ nl) ++ "xref" ++ nl ++ data))).
Proof.
  intros pre data.
  apply (ListXrefEntries_skips_leading_entries
           ("%PDF-1.4" ++ nl) pre data 1 EmptyString).
  - discriminate.
  - vm_compute. reflexivity.
Defined.

(** * Further properties *)

(** ** The offset reader *)

Lemma drop_all (n : nat) (s : string) :
  (String.length s <= n)%nat -> drop n s = EmptyString.
Proof.
  revert s. induction n; intros [|c r]; simpl; intros H; auto; try lia.
  apply IHn. lia.
Qed.

Lemma readAllSizes_nonneg (f : File) (sizes : list nat) :
  forall off : Z,
    0 <= off ->
    Forall (fun n => 0 < n)%nat sizes ->
    (String.length (drop (Z.to_nat off) (contents f)) < List.length sizes)%nat ->
    readAllSizes sizes (mkAtReader f off)
    = (drop (Z.to_nat off) (contents f), None).
Proof.
  induction sizes as [|n sizes IH]; intros off Hoff Hpos Hlen;
    [simpl in Hlen; lia|].
  inversion Hpos as [|? ? Hn Hrest]; subst.
  cbn [readAllSizes]. unfold AtReader_Read, File_ReadAt. cbn [ar_ra ar_offset].
  destruct (off <? 0) eqn:E; [apply Z.ltb_lt in E; lia|].
  set (s := drop (Z.to_nat off) (contents f)) in *.
  destruct (String.length (take n s) <? n)%nat eqn:L.
  - apply Nat.ltb_lt in L. rewrite length_take in L.
    rewrite take_all by lia. reflexivity.
  - apply Nat.ltb_ge in L. rewrite length_take in L.
    assert (Hd : String.length (take n s) = n) by (rewrite length_take; lia).
    unfold len. rewrite Hd.
    assert (Ho : Z.to_nat (off + Z.of_nat n) = (Z.to_nat off + n)%nat) by lia.
    rewrite IH; try lia; try assumption.
    + rewrite Ho, <- drop_drop. fold s. now rewrite take_drop_id.
    + rewrite Ho, <- drop_drop. fold s. rewrite length_drop.
      simpl in Hlen. lia.
Qed.

(** X1. Reading an [AtReader] to the end delivers exactly the bytes of
    the file from the starting offset on and ends without error: the end
    of the file is not an error, and a short last read loses nothing.
    This holds for a starting offset that is not negative and buffers of
    any positive sizes, as long as every read ends within the range of
    [int64]: the larger of the starting offset and the length of the
    file, plus the size of the buffer, is at most [max_int64]. *)
Theorem AtReader_delivers_file_suffix :
  forall (f : File) (off : Z) (sizes : list nat),
    0 <= off ->
    Forall (fun n => (0 < n)%nat
                     /\ Z.max off (len (contents f)) + Z.of_nat n <= max_int64)
           sizes ->
    (String.length (contents f) < List.length sizes)%nat ->
    readAllSizes sizes (NewAtReader f off)
    = (drop (Z.to_nat off) (contents f), None).
Proof.
  intros f off sizes Hoff Hsizes Hlen. apply readAllSizes_nonneg.
  - exact Hoff.
  - eapply Forall_impl; [|exact Hsizes]. intros n [Hn _]. exact Hn.
  - rewrite length_drop. lia.
Qed.

Lemma AtReader_delivers_file_suffix_witness :
  readAllSizes [2; 3; 1; 4; 4; 4; 4; 4; 4; 4]%nat (NewAtReader (mkFile "%PDF-1.4") 1)
  = ("PDF-1.4", None).
Proof.
  apply (AtReader_delivers_file_suffix (mkFile "%PDF-1.4") 1).
  - lia.
  - repeat constructor; vm_compute; discriminate.
  - simpl. lia.
Defined.

(** X2. [dumpAt] writes the file from the offset to its end; at an offset
    beyond the end, or at a negative offset (whose error it drops), it
    writes nothing. *)
Theorem dumpAt_writes_suffix :
  forall (f : File) (off : Z) (sizes : list nat),
    Forall (fun n => 0 < n)%nat sizes ->
    (String.length (contents f) < List.length sizes)%nat ->
    dumpAt sizes f off
    = (if off <? 0 then EmptyString else drop (Z.to_nat off) (contents f))
    /\ (len (contents f) <= off -> dumpAt sizes f off = EmptyString).
Proof.
  intros f off sizes Hpos Hlen.
  assert (H : dumpAt sizes f off
              = if off <? 0 then EmptyString else drop (Z.to_nat off) (contents f)).
  { unfold dumpAt. destruct (off <? 0) eqn:E.
    - apply Z.ltb_lt in E.
      destruct sizes as [|m sizes]; [reflexivity|].
      unfold NewAtReader. cbn [readAllSizes].
      unfold AtReader_Read, File_ReadAt. cbn [ar_ra ar_offset].
      now rewrite (proj2 (Z.ltb_lt _ _) E).
    - apply Z.ltb_ge in E. unfold NewAtReader.
      rewrite readAllSizes_nonneg; auto. rewrite length_drop. lia. }
  split; [exact H|].
  intros Hbig. rewrite H.
  destruct (off <? 0) eqn:E; [reflexivity|].
  apply drop_all. unfold len in Hbig. lia.
Qed.

Lemma dumpAt_writes_suffix_witness :
  dumpAt [4; 4; 4; 4; 4; 4; 4; 4; 4]%nat (mkFile "%PDF-1.4") 5 = "1.4"
  /\ (len "%PDF-1.4" <= 5 ->
      dumpAt [4; 4; 4; 4; 4; 4; 4; 4; 4]%nat (mkFile "%PDF-1.4") 5 = EmptyString).
Proof.
  apply (dumpAt_writes_suffix (mkFile "%PDF-1.4") 5).
  - repeat constructor.
  - simpl. lia.
Defined.

(** ** Lookup *)

(** X3. A successful lookup returns an entry of the list that carries the
    requested number and generation and that no matching entry precedes;
    a failed lookup means that no entry of the list matches.  So the
    lookup succeeds exactly when some entry matches. *)
Theorem findXrefEntry_sound :
  forall (es : list XrefEntry) (number generation : Z),
    (forall e, findXrefEntry es number generation = (e, None) ->
       exists pre post,
         es = (pre ++ e :: post)%list
         /\ matchesEntry number generation e
         /\ forall x, In x pre -> ~ matchesEntry number generation x)
    /\ (forall e err, findXrefEntry es number generation = (e, Some err) ->
          e = zeroXrefEntry /\ err = ErrNew "no entry found"
          /\ forall x, In x es -> ~ matchesEntry number generation x).
Proof.
  intros es number generation. unfold matchesEntry.
  induction es as [|a es [IH1 IH2]]; split.
  - intros e H. discriminate.
  - intros e err [= <- <-]. repeat split; intros x [].
  - intros e H. cbn [findXrefEntry] in H.
    destruct ((Number a =? number) && (Generation a =? generation)) eqn:M.
    + injection H as <-. apply andb_prop in M as [M1 M2].
      apply Z.eqb_eq in M1, M2.
      exists [], es. repeat split; auto; intros x [].
    + destruct (IH1 e H) as (pre & post & -> & Hm & Hpre).
      exists (a :: pre), post. repeat split; try apply Hm.
      intros x [<-|Hx]; [|now apply Hpre].
      intros [H1 H2]. apply Z.eqb_eq in H1, H2. rewrite H1, H2 in M. discriminate.
  - intros e err H. cbn [findXrefEntry] in H.
    destruct ((Number a =? number) && (Generation a =? generation)) eqn:M;
      [discriminate|].
    destruct (IH2 e err H) as (-> & -> & Hes). repeat split.
    intros x [<-|Hx]; [|now apply Hes].
    intros [H1 H2]. apply Z.eqb_eq in H1, H2. rewrite H1, H2 in M. discriminate.
Qed.

Lemma findXrefEntry_sound_witness :
  exists pre post,
    [mkXrefEntry 9 4 0 true; mkXrefEntry 17 5 0 true; mkXrefEntry 81 5 0 false]
    = (pre ++ mkXrefEntry 17 5 0 true :: post)%list
    /\ matchesEntry 5 0 (mkXrefEntry 17 5 0 true)
    /\ forall x, In x pre -> ~ matchesEntry 5 0 x.
Proof.
  apply (proj1 (findXrefEntry_sound
                  [mkXrefEntry 9 4 0 true; mkXrefEntry 17 5 0 true;
                   mkXrefEntry 81 5 0 false] 5 0)).
  reflexivity.
Defined.

(** ** ListXrefEntries: where the table is opened *)

(** X4. When [StartXref] is negative, or at or beyond the end of the file,
    the scanner delivers no line and [ListXrefEntries] fails with "should
    be xref": a bad table offset is reported as a wrong first line, not
    as a read error. *)
Theorem ListXrefEntries_offset_outside_file :
  forall t : Trailer,
    StartXref t < 0 \/ len (contents (ra t)) <= StartXref t ->
    ListXrefEntries t = Done ([], Some (ErrNew "should be xref")).
Proof.
  intros t [H|H]; unfold ListXrefEntries.
  - rewrite AtReader_stream_neg by assumption. reflexivity.
  - rewrite AtReader_stream_nonneg by (unfold len in H; lia).
    rewrite drop_all by (unfold len in H; lia). reflexivity.
Qed.

Lemma ListXrefEntries_offset_outside_file_witness :
  ListXrefEntries (mkTrailer 200 2 EmptyString smallPDF)
  = Done ([], Some (ErrNew "should be xref"))
  /\ ListXrefEntries (mkTrailer (-1) 2 EmptyString smallPDF)
     = Done ([], Some (ErrNew "should be xref")).
Proof.
  split.
  - apply ListXrefEntries_offset_outside_file. right. vm_compute. discriminate.
  - apply ListXrefEntries_offset_outside_file. left. reflexivity.
Defined.

(** ** ListXrefEntries: panics *)

Lemma SplitN_3_cases (l : string) :
  (cutSpace l = None /\ SplitN l 3 = [l])
  \/ (exists a b, SplitN l 3 = [a; b])
  \/ (exists a b c, SplitN l 3 = [a; b; c]).
Proof.
  cbn [SplitN]. destruct (cutSpace l) as [[a r]|]; [|now left].
  right. destruct (cutSpace r) as [[b r']|]; [right|left]; eauto.
Qed.

Lemma xrefBody_panic (st : LoopState) (l : string) (p : panic) :
  xrefBody st l = Panicked p ->
  p = IndexOutOfRange 1 1 /\ cutSpace l = None
  /\ pos st <> count st /\ exists v, ParseInt l = inl v.
Proof.
  unfold xrefBody.
  destruct (SplitN_3_cases l) as [[Hc ->]|[(a & b & ->)|(a & b & c & ->)]];
    cbn [List.length Nat.eqb at_index nth_error bind].
  - destruct (pos st =? count st) eqn:P; [discriminate|].
    apply Z.eqb_neq in P. unfold readXrefEntry.
    cbn [at_index nth_error bind List.length].
    destruct (ParseInt l) as [v|e] eqn:V; cbn [bind]; [|discriminate].
    intros [= <-]. eauto.
  - destruct (Atoi a); [|discriminate]. destruct (Atoi b); discriminate.
  - destruct (pos st =? count st); [discriminate|].
    unfold readXrefEntry. cbn [at_index nth_error bind].
    destruct (ParseInt a); cbn [bind]; [|discriminate].
    destruct (Atoi b); cbn [bind]; discriminate.
Qed.

Lemma xrefLoop_panic (size : Z) (ts : list string) :
  forall (st : LoopState) (p : panic),
    xrefLoop size ts st = Panicked p ->
    p = IndexOutOfRange 1 1
    /\ exists l, In l ts /\ cutSpace l = None /\ exists v, ParseInt l = inl v.
Proof.
  induction ts as [|l ts IH]; intros st p H; [discriminate|].
  cbn [xrefLoop] in H. destruct (size =? total st); [discriminate|].
  destruct (xrefBody st l) as [[st'|e]|q] eqn:B; cbn [bind] in H.
  - destruct (IH st' p H) as (-> & x & Hx & Hc). split; [reflexivity|].
    exists x. split; [now right|exact Hc].
  - discriminate.
  - injection H as <-.
    destruct (xrefBody_panic _ _ _ B) as (-> & Hc & _ & Hv).
    split; [reflexivity|]. exists l. split; [now left|]. auto.
Qed.

(** X5. [ListXrefEntries] can only panic in one way: indexing the second
    piece of a line that holds no space and reads as an integer.  A table
    in which every line after [xref] contains a space, or is no integer,
    is parsed without a panic. *)
Theorem ListXrefEntries_panics_only_on_bare_integer :
  forall (t : Trailer) (p : panic),
    ListXrefEntries t = Panicked p ->
    p = IndexOutOfRange 1 1
    /\ exists l,
        In l (tl (toks (NewScanner
                          (AtReader_stream (NewAtReader (ra t) (StartXref t))))))
        /\ cutSpace l = None
        /\ exists v, ParseInt l = inl v.
Proof.
  intros t p H. unfold ListXrefEntries in H.
  destruct (negb _); [discriminate|].
  destruct (xrefLoop (Size t) _ initLoop) as [r|q] eqn:L; cbn [bind] in H.
  - destruct r as [st|st|e]; try discriminate.
    destruct (ferr _); discriminate.
  - injection H as <-. exact (xrefLoop_panic _ _ _ _ L).
Qed.

Lemma ListXrefEntries_panics_only_on_bare_integer_witness :
  let t := mkTrailer 1025 1 EmptyString oneFieldPDF in
  IndexOutOfRange 1 1 = IndexOutOfRange 1 1
  /\ exists l,
      In l (tl (toks (NewScanner
                        (AtReader_stream (NewAtReader (ra t) (StartXref t))))))
      /\ cutSpace l = None
      /\ exists v, ParseInt l = inl v.
Proof.
  intros t.
  apply (ListXrefEntries_panics_only_on_bare_integer t (IndexOutOfRange 1 1)).
  vm_compute. reflexivity.
Defined.

(** ** readTrailer: the block kept in Raw *)

Lemma HasPrefix_app (p r : string) : HasPrefix (p ++ r) p = true.
Proof.
  induction p as [|c p IH]; [now destruct r|].
  cbn. now rewrite Ascii.eqb_refl.
Qed.

Lemma HasPrefix_split (s p : string) :
  HasPrefix s p = true -> exists r, s = p ++ r.
Proof.
  revert s. induction p as [|c p IH]; intros s H.
  - exists s. reflexivity.
  - destruct s as [|d s]; [discriminate|]. cbn in H.
    apply andb_prop in H as [H1 H2]. apply Ascii.eqb_eq in H1. subst d.
    destruct (IH s H2) as [r ->]. now exists r.
Qed.

Lemma IndexFrom_found (s sub : string) :
  forall i : Z,
    IndexFrom i s sub <> -1 ->
    0 <= i ->
    i <= IndexFrom i s sub
    /\ HasPrefix (drop (Z.to_nat (IndexFrom i s sub - i)) s) sub = true.
Proof.
  induction s as [|c s IH]; intros i Hr Hi; cbn [IndexFrom] in *.
  - destruct (HasPrefix EmptyString sub) eqn:P; [|contradiction].
    rewrite Z.sub_diag. split; [lia|exact P].
  - destruct (HasPrefix (String c s) sub) eqn:P.
    + rewrite Z.sub_diag. split; [lia|exact P].
    + destruct (IH (i + 1) Hr ltac:(lia)) as [H1 H2]. split; [lia|].
      replace (Z.to_nat (IndexFrom (i + 1) s sub - i))
        with (S (Z.to_nat (IndexFrom (i + 1) s sub - (i + 1)))) by lia.
      exact H2.
Qed.

Lemma IndexFrom_contains (a sub b : string) :
  forall i : Z,
    0 <= i ->
    i <= IndexFrom i (a ++ sub ++ b) sub <= i + len a.
Proof.
  induction a as [|c a IH]; intros i Hi.
  - cbn [append]. unfold len. cbn [String.length].
    destruct (sub ++ b) eqn:E; cbn [IndexFrom]; rewrite <- E, HasPrefix_app; lia.
  - change (String c a ++ sub ++ b) with (String c (a ++ sub ++ b)).
    cbn [IndexFrom]. unfold len. cbn [String.length].
    destruct (HasPrefix _ sub); [lia|].
    specialize (IH (i + 1) ltac:(lia)). unfold len in IH. lia.
Qed.

(** X6. For a file of at least 1024 bytes: when the keyword [trailer]
    occurs in the last 1024 bytes, [Raw] is that block from the first
    occurrence of the keyword on, so it begins with [trailer]; when the
    keyword does not occur there, [Raw] is the whole block and
    [readTrailer] goes on to scan it. *)
Theorem readTrailer_Raw_from_keyword :
  forall f : File,
    1024 <= len (contents f) <= max_int64 ->
    let block := drop (String.length (contents f) - 1024) (contents f) in
    let raw := Raw (fst (readTrailer f (len (contents f)))) in
    (forall a b, block = a ++ "trailer" ++ b ->
       HasPrefix raw "trailer" = true
       /\ exists a', block = a' ++ raw
                     /\ (String.length a' <= String.length a)%nat)
    /\ ((forall a b, block <> a ++ "trailer" ++ b) -> raw = block).
Proof.
  intros f Hlen block raw. subst raw. rewrite readTrailer_Raw by assumption.
  unfold trailerBlock, findTrailerInBlock, Index. fold block.
  split.
  - intros a b Hab.
    pose proof (IndexFrom_contains a "trailer" b 0 ltac:(lia)) as Hc.
    rewrite <- Hab in Hc.
    destruct (IndexFrom_found block "trailer" 0 ltac:(lia) ltac:(lia)) as [_ Hp].
    rewrite Z.sub_0_r in Hp.
    destruct (0 <? IndexFrom 0 block "trailer") eqn:E.
    + split; [exact Hp|].
      exists (take (Z.to_nat (IndexFrom 0 block "trailer")) block).
      split; [now rewrite take_drop_id|].
      rewrite length_take. unfold len in Hc. lia.
    + apply Z.ltb_ge in E.
      replace (IndexFrom 0 block "trailer") with 0 in Hp by lia.
      split; [exact Hp|]. exists EmptyString. split; [reflexivity|simpl; lia].
  - intros Hno.
    destruct (0 <? IndexFrom 0 block "trailer") eqn:E; [|reflexivity].
    apply Z.ltb_lt in E. exfalso.
    destruct (IndexFrom_found block "trailer" 0 ltac:(lia) ltac:(lia)) as [_ Hp].
    apply HasPrefix_split in Hp as [r Hr].
    apply (Hno (take (Z.to_nat (IndexFrom 0 block "trailer" - 0)) block) r).
    now rewrite <- Hr, take_drop_id.
Qed.

Lemma readTrailer_Raw_from_keyword_witness :
  let f := paddedFile ["1 0 obj"; "endobj"; "trailer"; "/Size 5"; "%%EOF"] in
  let block := drop (String.length (contents f) - 1024) (contents f) in
  let raw := Raw (fst (readTrailer f (len (contents f)))) in
  HasPrefix raw "trailer" = true
  /\ exists a', block = a' ++ raw
                /\ (String.length a'
                    <= String.length (fill 986 "%" ++ nl ++ lines ["1 0 obj"; "endobj"]))%nat.
Proof.
  intros f block raw.
  apply (proj1 (readTrailer_Raw_from_keyword f ltac:(vm_compute; split; discriminate))
               (fill 986 "%" ++ nl ++ lines ["1 0 obj"; "endobj"])
               (nl ++ lines ["/Size 5"; "%%EOF"])).
  vm_compute. reflexivity.
Defined.

(** ** readTrailer: startxref and /Size together *)

Lemma trailerLoop_startxref_line (tr : Trailer) (l : string) (rest : list string) :
  HasPrefix l "startxref" = true ->
  trailerLoop tr (l :: rest)
  = match ParseInt (Text rest) with
    | inl v => trailerLoop (setStartXref tr v) (tl rest)
    | inr e => (tr, Some (ErrWrap "unable to parse startxref" e))
    end.
Proof.
  intros H. cbn [trailerLoop]. rewrite H. destruct rest; reflexivity.
Qed.



(** X8. After plain lines, a line beginning with [startxref] makes
    [readTrailer] parse the next line as the table offset; when that line
    is no integer, or when [startxref] is the last line of the block (the
    text read is then empty), [readTrailer] fails with "unable to parse
    startxref" and an otherwise empty trailer. *)
Theorem readTrailer_startxref_value_error :
  forall (f : File) (pre : list string) (lx : string) (rest : list string)
         (e : error),
    1024 <= len (contents f) <= max_int64 ->
    toks (NewScanner (Raw (fst (readTrailer f (len (contents f)))), None))
    = (pre ++ lx :: rest)%list ->
    forallb plainLineb pre = true ->
    HasPrefix lx "startxref" = true ->
    ParseInt (Text rest) = inr e ->
    readTrailer f (len (contents f))
    = (mkTrailer 0 0 (Raw (fst (readTrailer f (len (contents f))))) f,
       Some (ErrWrap "unable to parse startxref" e)).
Proof.
  intros f pre lx rest e Hlen Htoks Hpre Hlx He.
  rewrite readTrailer_Raw in Htoks by assumption.
  rewrite readTrailer_Raw by assumption.
  rewrite readTrailer_long by assumption.
  rewrite Htoks, trailerLoop_app_plain by now apply plainLineb_spec.
  rewrite trailerLoop_startxref_line by assumption.
  now rewrite He.
Qed.

Lemma readTrailer_startxref_value_error_witness :
  let f := paddedFile ["trailer"; "startxref"] in
  readTrailer f (len (contents f))
  = (mkTrailer 0 0 (Raw (fst (readTrailer f (len (contents f))))) f,
     Some (ErrWrap "unable to parse startxref"
                   (NumError "ParseInt" EmptyString ErrSyntax))).
Proof.
  intros f.
  apply (readTrailer_startxref_value_error f ["trailer"] "startxref" []);
    try reflexivity; try (vm_compute; split; discriminate).
Defined.

(** X9. When the block holds two accepted [/Size] lines, the later one
    decides: [Size] is its value. *)
Theorem readTrailer_last_Size_wins :
  forall (f : File) (pre : list string) (l1 : string) (mid : list string)
         (l2 : string) (post : list string) (v1 v2 : Z),
    1024 <= len (contents f) <= max_int64 ->
    toks (NewScanner (Raw (fst (readTrailer f (len (contents f)))), None))
    = (pre ++ l1 :: mid ++ l2 :: post)%list ->
    forallb plainLineb pre = true ->
    forallb plainLineb mid = true ->
    forallb plainLineb post = true ->
    HasPrefix l1 "startxref" = false -> 0 <= Index l1 "/Size " ->
    ParseInt (sizeText l1) = inl v1 -> v1 <> 0 ->
    HasPrefix l2 "startxref" = false -> 0 <= Index l2 "/Size " ->
    ParseInt (sizeText l2) = inl v2 -> v2 <> 0 ->
    Size (fst (readTrailer f (len (contents f)))) = v2
    /\ snd (readTrailer f (len (contents f))) = None.
Proof.
  intros f pre l1 mid l2 post v1 v2 Hlen Htoks Hpre Hmid Hpost
         H1 I1 P1 N1 H2 I2 P2 N2.
  rewrite readTrailer_Raw in Htoks by assumption.
  rewrite readTrailer_long by assumption.
  rewrite Htoks, trailerLoop_app_plain by now apply plainLineb_spec.
  rewrite trailerLoop_Size_line, P1, (proj2 (Z.eqb_neq _ _) N1) by assumption.
  rewrite trailerLoop_app_plain by now apply plainLineb_spec.
  rewrite trailerLoop_Size_line, P2, (proj2 (Z.eqb_neq _ _) N2) by assumption.
  rewrite trailerLoop_plain by now apply plainLineb_spec.
  split; reflexivity.
Qed.

Lemma readTrailer_last_Size_wins_witness :
  let f := paddedFile ["trailer"; "/Size 5"; "/Prev 116"; "/Size 9"; "%%EOF"] in
  Size (fst (readTrailer f (len (contents f)))) = 9
  /\ snd (readTrailer f (len (contents f))) = None.
Proof.
  intros f.
  apply (readTrailer_last_Size_wins f ["trailer"] "/Size 5" ["/Prev 116"]
           "/Size 9" ["%%EOF"] 5 9);
    try reflexivity; try (vm_compute; split; discriminate);
    try (vm_compute; discriminate).
Defined.

(** ** ListXrefEntries: the declared count of a subsection *)

Lemma xrefLoop_count_bound (size : Z) (body : list string) :
  forall (st : LoopState) (fin : LoopEnd) (st2 : LoopState),
    (forall l, In l body -> List.length (SplitN l 3) <> 2%nat) ->
    0 <= pos st <= count st ->
    count st <= max_int64 ->
    xrefLoop size body st = Done fin ->
    endState fin = Some st2 ->
    exists es,
      entries st2 = (entries st ++ es)%list
      /\ Z.of_nat (List.length es) <= count st - pos st
      /\ pos st2 = pos st + Z.of_nat (List.length es)
      /\ count st2 = count st.
Proof.
  induction body as [|l body IH]; intros st fin st2 Hb Hpos Hmax Hrun Hfin.
  - injection Hrun as <-. injection Hfin as <-.
    exists []. rewrite app_nil_r. cbn [List.length Z.of_nat].
    repeat split; lia.
  - cbn [xrefLoop] in Hrun. destruct (size =? total st).
    + injection Hrun as <-. injection Hfin as <-.
      exists []. rewrite app_nil_r. cbn [List.length Z.of_nat].
      repeat split; lia.
    + destruct (xrefBody st l) as [[st'|e]|p] eqn:B; cbn [bind] in Hrun;
        try discriminate.
      2:{ injection Hrun as <-. discriminate. }
      assert (Hb' : forall x, In x body -> List.length (SplitN x 3) <> 2%nat)
        by (intros x Hx; apply Hb; now right).
      destruct (xrefBody_inv _ _ _ B)
        as [(a & b & Hs & _)|[(_ & _ & ->)|(_ & Hne & e & _ & ->)]].
      * exfalso. apply (Hb l); [now left|]. now rewrite Hs.
      * eapply IH; eauto.
      * assert (Hw : wrap64 (pos st + 1) = pos st + 1)
          by (apply wrap64_small; unfold min_int64, max_int64 in *; lia).
        rewrite Hw in Hrun.
        destruct (IH (mkLoopState (entries st ++ [e]) (offset st) (pos st + 1)
                        (count st) (wrap64 (total st + 1)))
                     fin st2 Hb' ltac:(cbn; lia) Hmax Hrun Hfin)
          as (es & Hes & Hlen & Hp & Hc).
        cbn [entries pos count] in Hes, Hlen, Hp, Hc.
        exists (e :: es). split; [now rewrite Hes, <- app_assoc|].
        cbn [List.length]. repeat split; lia.
Qed.

(** X10. A subsection never contributes more entries than its header
    declares, and the lines beyond the count are passed over.  Take a
    header with a count that is not negative and the lines [body] that
    follow it before the next header.  At most that many of them become
    entries.  And once the subsection has contributed as many entries as
    its header declares, further lines [extra] before the next header,
    whatever they hold, add no entry and raise no error: the loop goes on
    to the lines after them with its variables unchanged, or stops at
    the first of them when the running total has reached the size. *)
Theorem ListXrefEntries_subsection_bound :
  forall (size : Z) (pre : list string) (h a b : string) (first cnt : Z)
         (body : list string) (st1 : LoopState),
    xrefLoop size pre initLoop = Done (Exhausted st1) ->
    SplitN h 3 = [a; b] -> Atoi a = inl first -> Atoi b = inl cnt ->
    0 <= cnt ->
    forallb (fun l => negb (isSubsection l)) body = true ->
    (forall (fin : LoopEnd) (st2 : LoopState),
        xrefLoop size (pre ++ h :: body) initLoop = Done fin ->
        endState fin = Some st2 ->
        exists es,
          entries st2 = (entries st1 ++ es)%list
          /\ Z.of_nat (List.length es) <= cnt)
    /\
    (forall (st2 : LoopState) (extra rest : list string),
        xrefLoop size (pre ++ h :: body) initLoop = Done (Exhausted st2) ->
        Z.of_nat (List.length (entries st2))
        = Z.of_nat (List.length (entries st1)) + cnt ->
        extra <> [] ->
        forallb (fun l => negb (isSubsection l)) extra = true ->
        xrefLoop size (pre ++ h :: body ++ extra ++ rest) initLoop
        = if size =? total st2 then Done (Broke st2)
          else xrefLoop size rest st2).
Proof.
  intros size pre h a b first cnt body st1 Hpre Hs Ha Hb Hcnt Hbody.
  assert (Hsplit : forall ls,
             forallb (fun l => negb (isSubsection l)) ls = true ->
             forall l, In l ls -> List.length (SplitN l 3) <> 2%nat).
  { intros ls Hls l Hl. rewrite forallb_forall in Hls.
    specialize (Hls l Hl). unfold isSubsection in Hls.
    now apply negb_true_iff, Nat.eqb_neq in Hls. }
  pose proof (parseInt64_range _ _ _ Hb) as Hr.
  assert (Hrun1 : forall fin st2,
             xrefLoop size (pre ++ h :: body) initLoop = Done fin ->
             endState fin = Some st2 ->
             (fin = Broke st1 /\ st2 = st1)
             \/ exists es,
                 entries st2 = (entries st1 ++ es)%list
                 /\ Z.of_nat (List.length es) <= cnt
                 /\ pos st2 = Z.of_nat (List.length es)
                 /\ count st2 = cnt).
  { intros fin st2 Hrun Hfin.
    rewrite xrefLoop_app, Hpre in Hrun. cbn [bind xrefLoop] in Hrun.
    destruct (size =? total st1).
    - injection Hrun as <-. injection Hfin as <-. now left.
    - rewrite (xrefBody_header st1 h a b first cnt Hs Ha Hb) in Hrun.
      cbn [bind] in Hrun. right.
      destruct (xrefLoop_count_bound size body
                  (mkLoopState (entries st1) first 0 cnt (total st1)) fin st2
                  (Hsplit body Hbody) ltac:(cbn [pos count]; lia)
                  ltac:(cbn [count]; lia) Hrun Hfin)
        as (es & Hes & Hlen & Hp & Hc).
      cbn [entries pos count] in Hes, Hlen, Hp, Hc.
      exists es. repeat split; auto; lia. }
  split.
  - intros fin st2 Hrun Hfin.
    destruct (Hrun1 fin st2 Hrun Hfin) as [[_ ->]|(es & Hes & Hlen & _)].
    + exists []. rewrite app_nil_r. split; [reflexivity|simpl; lia].
    + exists es. auto.
  - intros st2 extra rest Hrun Hfull Hne Hextra.
    destruct (Hrun1 _ st2 Hrun eq_refl)
      as [[Hbr _]|(es & Hes & _ & Hp & Hc)]; [discriminate|].
    assert (Hpc : pos st2 = count st2).
    { rewrite Hes, length_app in Hfull. lia. }
    replace (pre ++ h :: body ++ extra ++ rest)%list
      with ((pre ++ h :: body) ++ extra ++ rest)%list
      by now rewrite <- app_assoc.
    rewrite xrefLoop_app, Hrun. cbn [bind].
    destruct (size =? total st2) eqn:E.
    + destruct extra as [|x extra]; [congruence|].
      cbn [app xrefLoop]. now rewrite E.
    + apply xrefLoop_skip; [now apply Z.eqb_neq|exact Hpc|].
      exact (Hsplit extra Hextra).
Qed.

Lemma ListXrefEntries_subsection_bound_witness :
  let pre := ["0 1"; "0000000000 65535 f "] in
  let body := ["0000000017 00000 n "] in
  let extra := ["0000000081 00000 n "; "not an entry at all"] in
  let rest := ["7 1"; "0000000099 00000 n "] in
  let st1 := mkLoopState [mkXrefEntry 0 0 65535 false] 0 1 1 1 in
  let st2 := mkLoopState [mkXrefEntry 0 0 65535 false;
                          mkXrefEntry 17 3 0 true] 3 1 1 2 in
  (exists es,
      entries st2 = (entries st1 ++ es)%list
      /\ Z.of_nat (List.length es) <= 1)
  /\ xrefLoop 5 (pre ++ "3 1" :: body ++ extra ++ rest) initLoop
     = (if 5 =? total st2 then Done (Broke st2) else xrefLoop 5 rest st2).
Proof.
  intros pre body extra rest st1 st2.
  assert (H := ListXrefEntries_subsection_bound 5 pre "3 1" "3" "1" 3 1 body
                 st1 eq_refl eq_refl eq_refl eq_refl ltac:(lia) eq_refl).
  split.
  - apply (proj1 H (Exhausted st2) st2); reflexivity.
  - apply (proj2 H st2 extra rest); try reflexivity. discriminate.
Defined.

(** ** readEntry: a complete object *)

Lemma entryLoop_endobj (body : list string) (e : string) (rest : list string) :
  forall b : string,
    (forall x, In x body -> EqualFold x "endobj" = false) ->
    EqualFold e "endobj" = true ->
    entryLoop (body ++ e :: rest) b = (b ++ lines (body ++ [e]), false).
Proof.
  induction body as [|t body IH]; intros b H He.
  - cbn [app entryLoop lines]. rewrite He. now rewrite append_nil_r.
  - cbn [app entryLoop lines]. rewrite (H t) by now left.
    rewrite IH by (auto; intros x Hx; apply H; now right).
    now rewrite !append_assoc.
Qed.

Lemma scannable_spec (ls : list string) :
  forallb scannable ls = true ->
  forall l, In l ls -> noNewline l = true /\ len l < MaxScanTokenSize.
Proof.
  intros H l Hl. rewrite forallb_forall in H. specialize (H l Hl).
  unfold scannable in H. apply andb_prop in H as [H1 H2].
  apply Z.ltb_lt in H2. auto.
Qed.

Lemma readEntry_object_lines (pre l : string) (body : list string)
      (e post : string) (ent : XrefEntry) :
  ByteOffset ent = len pre ->
  forallb scannable (l :: body ++ [e]) = true ->
  HasSuffix (dropCR l) "obj" = true ->
  forallb (fun x => negb (EqualFold (dropCR x) "endobj")) body = true ->
  EqualFold (dropCR e) "endobj" = true ->
  readEntry ent (mkFile (pre ++ lines (l :: body ++ [e]) ++ post))
  = (lines (map dropCR (l :: body ++ [e])), None).
Proof.
  intros Hoff Hscan Hobj Hbody Hend. unfold readEntry.
  rewrite Hoff, AtReader_stream_nonneg by (unfold len; lia).
  unfold len. rewrite Nat2Z.id. cbn [contents]. rewrite drop_app_length.
  rewrite NewScanner_lines by now apply scannable_spec.
  cbn [toks ferr map app Text tl]. rewrite Hobj. cbn [negb].
  rewrite map_app. cbn [map]. rewrite <- app_assoc. cbn [app].
  rewrite entryLoop_endobj; auto.
  - cbn [lines]. now rewrite !append_assoc.
  - intros x Hx. apply in_map_iff in Hx as (y & <- & Hy).
    rewrite forallb_forall in Hbody. now apply negb_true_iff, Hbody.
Qed.

(** X11. An object is extracted from its start line through the first
    line that equals [endobj] without regard to case, and nothing after
    it is read into the result.  Each line loses one trailing carriage
    return and is ended by a single newline, so for lines without a
    trailing carriage return the result is byte for byte the text of the
    file from the entry's offset through the [endobj] line. *)
Theorem readEntry_complete_object :
  forall (pre l : string) (body : list string) (e post : string)
         (ent : XrefEntry),
    ByteOffset ent = len pre ->
    forallb scannable (l :: body ++ [e]) = true ->
    HasSuffix (dropCR l) "obj" = true ->
    forallb (fun x => negb (EqualFold (dropCR x) "endobj")) body = true ->
    EqualFold (dropCR e) "endobj" = true ->
    readEntry ent (mkFile (pre ++ lines (l :: body ++ [e]) ++ post))
    = (lines (map dropCR (l :: body ++ [e])), None)
    /\ (map dropCR (l :: body ++ [e]) = l :: body ++ [e] ->
        readEntry ent (mkFile (pre ++ lines (l :: body ++ [e]) ++ post))
        = (lines (l :: body ++ [e]), None)).
Proof.
  intros pre l body e post ent Hoff Hscan Hobj Hbody Hend.
  pose proof (readEntry_object_lines pre l body e post ent
                Hoff Hscan Hobj Hbody Hend) as H.
  split; [exact H|]. intros Hcr. now rewrite H, Hcr.
Qed.

Lemma readEntry_complete_object_witness :
  let l := "7 0 obj" ++ String cr EmptyString in
  let body := ["<< /Length 5 >>"; "stream"; "hello"; "endstream"] in
  readEntry (mkXrefEntry 9 7 0 true)
    (mkFile (("%PDF-1.4" ++ nl) ++ lines (l :: body ++ ["EndObj"]) ++ "xref"))
  = (lines (map dropCR (l :: body ++ ["EndObj"])), None).
Proof.
  intros l body.
  apply (proj1 (readEntry_complete_object ("%PDF-1.4" ++ nl) l body
                  "EndObj" "xref" (mkXrefEntry 9 7 0 true)
                  eq_refl eq_refl eq_refl eq_refl eq_refl)).
Defined.

(** ** Decimal notation is read back by strconv *)

Lemma digitVal_digitChar (d : Z) :
  0 <= d <= 9 -> digitVal (digitChar d) = Some d.
Proof.
  intros H.
  assert (E : d = 0 \/ d = 1 \/ d = 2 \/ d = 3 \/ d = 4 \/ d = 5 \/ d = 6
              \/ d = 7 \/ d = 8 \/ d = 9) by lia.
  repeat (destruct E as [->|E]; [reflexivity|]). subst. reflexivity.
Qed.

Lemma parseDigits_app (s : string) (c : ascii) :
  forall acc : Z,
    parseDigits (s ++ String c EmptyString) acc
    = match parseDigits s acc with
      | inl a => parseDigits (String c EmptyString) a
      | inr k => inr k
      end.
Proof.
  induction s as [|x s IH]; intros acc; [reflexivity|].
  cbn [append parseDigits]. destruct (digitVal x); [|reflexivity].
  destruct (max_uint64 <? acc * 10 + z); [reflexivity|]. apply IH.
Qed.

Lemma pow10_succ (k : nat) : 10 ^ Z.of_nat (S k) = 10 * 10 ^ Z.of_nat k.
Proof. rewrite Nat2Z.inj_succ, Z.pow_succ_r by lia. reflexivity. Qed.

Lemma pow10_pos (k : nat) : 0 < 10 ^ Z.of_nat k.
Proof. apply Z.pow_pos_nonneg; lia. Qed.

Lemma parseDigits_dec (w : nat) :
  forall v acc : Z,
    0 <= acc ->
    0 <= v < 10 ^ Z.of_nat w ->
    acc * 10 ^ Z.of_nat w + v <= max_uint64 ->
    parseDigits (dec w v) acc = inl (acc * 10 ^ Z.of_nat w + v).
Proof.
  induction w as [|k IH]; intros v acc Hacc Hv Hmax.
  - cbn in *. f_equal. lia.
  - rewrite pow10_succ in *. pose proof (pow10_pos k) as Hp.
    assert (Hq : 0 <= v / 10 < 10 ^ Z.of_nat k)
      by (split; [apply Z.div_pos; lia|apply Z.div_lt_upper_bound; lia]).
    pose proof (Z.mod_pos_bound v 10 ltac:(lia)) as Hm.
    pose proof (Z.div_mod v 10 ltac:(lia)) as Hdm.
    cbn [dec]. rewrite parseDigits_app, IH by (auto; nia).
    cbn [parseDigits]. rewrite digitVal_digitChar by lia.
    replace ((acc * 10 ^ Z.of_nat k + v / 10) * 10 + v mod 10)
      with (acc * (10 * 10 ^ Z.of_nat k) + v) by nia.
    destruct (max_uint64 <? _) eqn:E; [apply Z.ltb_lt in E; lia|reflexivity].
Qed.

Lemma isDigits_app (a b : string) :
  isDigits (a ++ b) = isDigits a && isDigits b.
Proof.
  induction a as [|c a IH]; [reflexivity|].
  cbn [append isDigits]. destruct (digitVal c); auto.
Qed.

Lemma isDigits_dec (w : nat) : forall v : Z, isDigits (dec w v) = true.
Proof.
  induction w as [|k IH]; intros v; [reflexivity|].
  cbn [dec]. rewrite isDigits_app, IH. cbn [isDigits andb].
  pose proof (Z.mod_pos_bound v 10 ltac:(lia)).
  now rewrite digitVal_digitChar by lia.
Qed.

Lemma length_dec (w : nat) : forall v : Z, String.length (dec w v) = w.
Proof.
  induction w as [|k IH]; intros v; [reflexivity|].
  cbn [dec]. rewrite length_append, IH. simpl. lia.
Qed.

Lemma digit_not_sign (c : ascii) (d : Z) :
  digitVal c = Some d ->
  Ascii.eqb c "+" = false /\ Ascii.eqb c "-" = false
  /\ Ascii.eqb c " " = false /\ isNL c = false /\ Ascii.eqb c cr = false.
Proof.
  intros H. unfold isNL.
  repeat split; apply Ascii.eqb_neq; intros ->; discriminate.
Qed.

Lemma parseInt64_dec (fn : string) (w : nat) (v : Z) :
  (0 < w)%nat ->
  0 <= v < 10 ^ Z.of_nat w ->
  v <= max_int64 ->
  parseInt64 fn (dec w v) = inl v.
Proof.
  intros Hw Hv Hmax.
  pose proof (isDigits_dec w v) as Hd.
  pose proof (parseDigits_dec w v 0 ltac:(lia) Hv
                ltac:(unfold max_uint64, max_int64 in *; lia)) as Hp.
  pose proof (length_dec w v) as Hl.
  destruct (dec w v) as [|c r] eqn:E; [simpl in Hl; lia|].
  cbn [isDigits] in Hd. destruct (digitVal c) as [d|] eqn:D; [|discriminate].
  destruct (digit_not_sign c d D) as (Hplus & Hminus & _).
  unfold parseInt64. rewrite Hplus, Hminus. cbn [orb negb andb].
  unfold ParseUint. rewrite Hp. cbn [Z.add Z.mul].
  destruct (2 ^ 63 <=? v) eqn:R.
  - apply Z.leb_le in R. unfold max_int64 in Hmax. lia.
  - reflexivity.
Qed.

Lemma ndigits_bound (fuel : nat) :
  forall v : Z,
    0 <= v < 10 ^ Z.of_nat (S fuel) ->
    (0 < ndigits fuel v)%nat /\ v < 10 ^ Z.of_nat (ndigits fuel v).
Proof.
  induction fuel as [|k IH]; intros v Hv.
  - cbn in *. split; lia.
  - cbn [ndigits]. destruct (v <? 10) eqn:E.
    + apply Z.ltb_lt in E. cbn. split; lia.
    + apply Z.ltb_ge in E. rewrite pow10_succ in Hv.
      destruct (IH (v / 10)) as [H1 H2].
      { split; [apply Z.div_pos; lia|apply Z.div_lt_upper_bound; lia]. }
      split; [lia|]. rewrite pow10_succ.
      pose proof (Z.div_mod v 10 ltac:(lia)).
      pose proof (Z.mod_pos_bound v 10 ltac:(lia)). lia.
Qed.

(** The decimal notation of an [int] that is not negative is read back by
    [Atoi] and [ParseInt]. *)
Lemma parseInt64_decimal (fn : string) (v : Z) :
  0 <= v <= max_int64 -> parseInt64 fn (decimal v) = inl v.
Proof.
  intros Hv. unfold decimal.
  destruct (ndigits_bound 18 v) as [H1 H2].
  { unfold max_int64 in Hv. split; [lia|].
    apply Z.le_lt_trans with (2 ^ 63 - 1); [lia|reflexivity]. }
  apply parseInt64_dec; auto; lia.
Qed.

(** ** The lines of a written table *)

Lemma cutSpace_digits (a r : string) :
  isDigits a = true -> cutSpace (a ++ String " " r) = Some (a, r).
Proof.
  induction a as [|c a IH]; intros H; [reflexivity|].
  cbn [isDigits] in H. destruct (digitVal c) as [d|] eqn:D; [|discriminate].
  destruct (digit_not_sign c d D) as (_ & _ & Hsp & _).
  cbn [append cutSpace]. now rewrite Hsp, IH.
Qed.

Lemma cutSpace_none_digits (a : string) :
  isDigits a = true -> cutSpace a = None.
Proof.
  induction a as [|c a IH]; intros H; [reflexivity|].
  cbn [isDigits] in H. destruct (digitVal c) as [d|] eqn:D; [|discriminate].
  destruct (digit_not_sign c d D) as (_ & _ & Hsp & _).
  cbn [cutSpace]. now rewrite Hsp, IH.
Qed.

Lemma noNewline_app (a b : string) :
  noNewline (a ++ b) = noNewline a && noNewline b.
Proof.
  induction a as [|c a IH]; [reflexivity|].
  cbn [append noNewline]. now rewrite IH, andb_assoc.
Qed.

Lemma noNewline_digits (a : string) : isDigits a = true -> noNewline a = true.
Proof.
  induction a as [|c a IH]; intros H; [reflexivity|].
  cbn [isDigits] in H. destruct (digitVal c) as [d|] eqn:D; [|discriminate].
  destruct (digit_not_sign c d D) as (_ & _ & _ & Hnl & _).
  cbn [noNewline]. now rewrite Hnl, IH.
Qed.

Lemma dropCR_last (s : string) (c : ascii) :
  Ascii.eqb c cr = false ->
  dropCR (s ++ String c EmptyString) = s ++ String c EmptyString.
Proof.
  intros H. induction s as [|x s IH].
  - cbn [append dropCR]. now rewrite H.
  - destruct s as [|y s].
    + cbn [append dropCR]. now rewrite H.
    + cbn [append dropCR] in *. now rewrite IH.
Qed.

Lemma ndigits_le (fuel : nat) : forall v : Z, (ndigits fuel v <= S fuel)%nat.
Proof.
  induction fuel as [|k IH]; intros v; cbn [ndigits]; [lia|].
  destruct (v <? 10); [lia|]. specialize (IH (v / 10)). lia.
Qed.

Lemma decimal_facts (v : Z) :
  isDigits (decimal v) = true
  /\ (String.length (decimal v) <= 19)%nat
  /\ dropCR (decimal v) = decimal v.
Proof.
  unfold decimal. pose proof (ndigits_le 18 v) as Hle.
  split; [apply isDigits_dec|]. split; [rewrite length_dec; lia|].
  destruct (ndigits 18 v) as [|k]; [reflexivity|].
  cbn [dec]. apply dropCR_last.
  pose proof (Z.mod_pos_bound v 10 ltac:(lia)).
  now destruct (digit_not_sign _ _ (digitVal_digitChar (v mod 10) ltac:(lia)))
    as (_ & _ & _ & _ & H').
Qed.

Lemma SplitN_entryLine (e : XrefEntry) :
  SplitN (entryLine e) 3
  = [dec 10 (ByteOffset e); dec 5 (Generation e);
     (if InUse e then "n" else "f") ++ " "].
Proof.
  unfold entryLine.
  change (dec 10 (ByteOffset e) ++ " " ++ dec 5 (Generation e) ++ " "
          ++ (if InUse e then "n" else "f") ++ " ")
    with (dec 10 (ByteOffset e)
          ++ String " " (dec 5 (Generation e)
                         ++ String " " ((if InUse e then "n" else "f") ++ " "))).
  cbn [SplitN].
  now rewrite !cutSpace_digits by apply isDigits_dec.
Qed.

Lemma SplitN_headerLine (first : Z) (n : nat) :
  SplitN (headerLine first n) 3 = [decimal first; decimal (Z.of_nat n)].
Proof.
  unfold headerLine.
  change (decimal first ++ " " ++ decimal (Z.of_nat n))
    with (decimal first ++ String " " (decimal (Z.of_nat n))).
  cbn [SplitN].
  rewrite cutSpace_digits by apply decimal_facts.
  now rewrite cutSpace_none_digits by apply decimal_facts.
Qed.

Lemma entryLine_facts (e : XrefEntry) :
  scannable (entryLine e) = true /\ dropCR (entryLine e) = entryLine e.
Proof.
  unfold entryLine. split.
  - unfold scannable. apply andb_true_intro. split.
    + rewrite !noNewline_app.
      rewrite (noNewline_digits (dec 10 (ByteOffset e))),
        (noNewline_digits (dec 5 (Generation e))) by apply isDigits_dec.
      now destruct (InUse e).
    + apply Z.ltb_lt. unfold len.
      rewrite !length_append, !length_dec. destruct (InUse e); reflexivity.
  - rewrite <- !append_assoc. apply dropCR_last. reflexivity.
Qed.

Lemma headerLine_facts (first : Z) (n : nat) :
  scannable (headerLine first n) = true
  /\ dropCR (headerLine first n) = headerLine first n.
Proof.
  destruct (decimal_facts first) as (D1 & L1 & _).
  destruct (decimal_facts (Z.of_nat n)) as (D2 & L2 & C2).
  unfold headerLine. split.
  - unfold scannable. apply andb_true_intro. split.
    + rewrite !noNewline_app.
      now rewrite (noNewline_digits _ D1), (noNewline_digits _ D2).
    + apply Z.ltb_lt. unfold len, MaxScanTokenSize.
      rewrite !length_append. simpl String.length. lia.
  - unfold decimal in *. destruct (ndigits 18 (Z.of_nat n)) as [|k].
    { cbn [dec]. apply (dropCR_last _ " "). reflexivity. }
    cbn [dec]. rewrite <- !append_assoc. apply dropCR_last.
    pose proof (Z.mod_pos_bound (Z.of_nat n) 10 ltac:(lia)).
    now destruct (digit_not_sign _ _
                    (digitVal_digitChar (Z.of_nat n mod 10) ltac:(lia)))
      as (_ & _ & _ & _ & H').
Qed.

Lemma subsectionLines_facts (sub : Subsection) :
  forallb scannable (subsectionLines sub) = true
  /\ map dropCR (subsectionLines sub) = subsectionLines sub.
Proof.
  destruct sub as [first es]. unfold subsectionLines. cbn [fst snd].
  pose proof (headerLine_facts first (List.length es)) as [H1 H2].
  assert (He : forallb scannable (map entryLine es) = true
               /\ map dropCR (map entryLine es) = map entryLine es).
  { clear H1 H2. induction es as [|e es [I1 I2]]; [split; reflexivity|].
    destruct (entryLine_facts e) as [E1 E2].
    split.
    - change (scannable (entryLine e) && forallb scannable (map entryLine es)
              = true).
      now rewrite E1, I1.
    - change (dropCR (entryLine e) :: map dropCR (map entryLine es)
              = entryLine e :: map entryLine es).
      now rewrite E2, I2. }
  destruct He as [E1 E2]. split.
  - change (scannable (headerLine first (List.length es))
            && forallb scannable (map entryLine es) = true).
    now rewrite H1, E1.
  - change (dropCR (headerLine first (List.length es))
            :: map dropCR (map entryLine es)
            = headerLine first (List.length es) :: map entryLine es).
    now rewrite H2, E2.
Qed.

Lemma tableLines_facts (subs : list Subsection) :
  forallb scannable (tableLines subs) = true
  /\ map dropCR (tableLines subs) = tableLines subs.
Proof.
  induction subs as [|sub subs [IH1 IH2]]; [split; reflexivity|].
  destruct (subsectionLines_facts sub) as [H1 H2].
  change (tableLines (sub :: subs))
    with (subsectionLines sub ++ tableLines subs)%list.
  rewrite forallb_app, map_app, H1, H2, IH1, IH2. split; reflexivity.
Qed.

(** ** Reading a written table back *)

Lemma xrefBody_entryLine (st : LoopState) (e : XrefEntry) :
  pos st <> count st ->
  entryInRange e ->
  xrefBody st (entryLine e)
  = Done (inl (mkLoopState
                 (entries st ++ [setNumber e (wrap64 (offset st + pos st))])
                 (offset st) (wrap64 (pos st + 1)) (count st)
                 (wrap64 (total st + 1)))).
Proof.
  intros Hpos [Ho Hg]. unfold xrefBody. rewrite SplitN_entryLine.
  cbn [List.length Nat.eqb]. rewrite (proj2 (Z.eqb_neq _ _) Hpos).
  unfold readXrefEntry. cbn [at_index nth_error bind].
  unfold ParseInt, Atoi.
  rewrite (parseInt64_dec "ParseInt" 10 (ByteOffset e))
    by (try (change (Z.of_nat 10) with 10); unfold max_int64; lia).
  cbn [bind].
  rewrite (parseInt64_dec "Atoi" 5 (Generation e))
    by (try (change (Z.of_nat 5) with 5); unfold max_int64; lia).
  cbn [bind]. unfold setNumber. cbn [ByteOffset Generation InUse].
  now destruct (InUse e).
Qed.

Lemma xrefLoop_entries (size : Z) (es : list XrefEntry) (rest : list string) :
  forall st : LoopState,
    Forall entryInRange es ->
    0 <= pos st ->
    pos st + Z.of_nat (List.length es) = count st ->
    0 <= offset st ->
    offset st + count st <= max_int64 ->
    0 <= total st ->
    total st + Z.of_nat (List.length es) <= size ->
    size <= max_int64 ->
    xrefLoop size (map entryLine es ++ rest) st
    = xrefLoop size rest
        (mkLoopState (entries st ++ renumber (offset st + pos st) es)
           (offset st) (count st) (count st)
           (total st + Z.of_nat (List.length es))).
Proof.
  induction es as [|e es IH]; intros st Hr Hpos Hcnt Hoff Hmax Htot Hsize Hsz.
  - cbn [map app renumber List.length] in *.
    rewrite app_nil_r, Z.add_0_r. rewrite Z.add_0_r in Hcnt.
    destruct st; cbn in *. now subst.
  - apply Forall_cons_iff in Hr as [He Hes].
    cbn [List.length] in Hcnt, Hsize. cbn [map app xrefLoop].
    destruct (size =? total st) eqn:E; [apply Z.eqb_eq in E; lia|].
    rewrite xrefBody_entryLine by (auto; lia). cbn [bind].
    rewrite !wrap64_small by (unfold min_int64, max_int64 in *; lia).
    rewrite IH; cbn [entries offset pos count total]; auto; try lia.
    f_equal. f_equal; try (cbn [List.length]; lia).
    rewrite <- app_assoc. cbn [app renumber]. do 3 f_equal. lia.
Qed.

Lemma length_renumber (es : list XrefEntry) :
  forall first : Z, List.length (renumber first es) = List.length es.
Proof. induction es; intros first; simpl; auto. Qed.

Lemma xrefLoop_table (size : Z) (l0 : string) (rest : list string)
      (subs : list Subsection) :
  forall st : LoopState,
    Forall subsectionInRange subs ->
    0 <= total st ->
    total st + Z.of_nat (List.length (tableEntries subs)) = size ->
    size <= max_int64 ->
    exists st',
      xrefLoop size (tableLines subs ++ l0 :: rest) st = Done (Broke st')
      /\ entries st' = (entries st ++ tableEntries subs)%list.
Proof.
  induction subs as [|[first es] subs IH]; intros st Hr Htot Hsize Hsz.
  - cbn in Hsize. cbn [tableLines map List.concat app xrefLoop].
    rewrite Z.add_0_r in Hsize. rewrite Hsize, Z.eqb_refl.
    exists st. split; [reflexivity|]. cbn. now rewrite app_nil_r.
  - apply Forall_cons_iff in Hr as [Hsub Hsubs].
    destruct Hsub as (Hf & Hfm & Hes). cbn [fst snd] in *.
    change (tableLines ((first, es) :: subs))
      with (headerLine first (List.length es)
            :: map entryLine es ++ tableLines subs)%list.
    change (tableEntries ((first, es) :: subs))
      with (renumber first es ++ tableEntries subs)%list in *.
    rewrite length_app, length_renumber, Nat2Z.inj_add in Hsize.
    cbn [app xrefLoop]. destruct (size =? total st) eqn:E.
    + apply Z.eqb_eq in E.
      assert (H0 : List.length es = 0%nat /\ List.length (tableEntries subs) = 0%nat)
        by lia.
      destruct H0 as [H1 H2].
      apply length_zero_iff_nil in H1, H2. subst es. rewrite H2.
      exists st. split; [reflexivity|]. cbn. now rewrite app_nil_r.
    + rewrite (xrefBody_header st _ _ _ first (Z.of_nat (List.length es))
                 (SplitN_headerLine first (List.length es))).
      2:{ apply parseInt64_decimal. lia. }
      2:{ apply parseInt64_decimal. lia. }
      cbn [bind]. rewrite <- app_assoc.
      rewrite xrefLoop_entries; cbn [entries offset pos count total];
        auto; try lia.
      rewrite Z.add_0_r.
      destruct (IH (mkLoopState (entries st ++ renumber first es) first
                      (Z.of_nat (List.length es)) (Z.of_nat (List.length es))
                      (total st + Z.of_nat (List.length es))) Hsubs)
        as (st' & Hrun & Hent); cbn [total]; try lia.
      exists st'. split; [exact Hrun|].
      rewrite Hent. cbn [entries]. now rewrite app_assoc.
Qed.

Lemma NewScanner_table (subs : list Subsection) (tail : string) :
  NewScanner ("xref" ++ nl ++ lines (tableLines subs) ++ "trailer" ++ nl ++ tail,
              None)
  = mkScanner ("xref" :: tableLines subs
               ++ "trailer" :: toks (NewScanner (tail, None)))
              (ferr (NewScanner (tail, None))).
Proof.
  destruct (tableLines_facts subs) as [Hscan Hcr].
  rewrite NewScanner_first_line by reflexivity.
  rewrite NewScanner_lines by now apply scannable_spec.
  rewrite NewScanner_first_line by reflexivity.
  cbn [toks ferr]. now rewrite Hcr.
Qed.

(** X12. Writing and reading a table: for subsections whose first object
    numbers are not negative, whose offsets have at most ten and whose
    generations at most five digits, the table written as [xref], then
    for each subsection its header and its 20-byte entry lines, then
    [trailer], is read back, with [Size] the total number of entries, as
    exactly those entries in order: offsets, generations and in-use flags
    as written, object numbers counted up from each header's first
    number.  Where the file puts the table, and what follows the
    [trailer] line, does not matter. *)
Theorem ListXrefEntries_reads_written_table :
  forall (before : string) (subs : list Subsection) (tail raw : string),
    Forall subsectionInRange subs ->
    Z.of_nat (List.length (tableEntries subs)) <= max_int64 ->
    ListXrefEntries
      (mkTrailer (len before) (Z.of_nat (List.length (tableEntries subs))) raw
         (mkFile (before ++ "xref" ++ nl ++ lines (tableLines subs)
                  ++ "trailer" ++ nl ++ tail)))
    = Done (tableEntries subs, None).
Proof.
  intros before subs tail raw Hr Hmax.
  unfold ListXrefEntries. cbn [ra StartXref Size].
  rewrite AtReader_stream_nonneg by (unfold len; lia).
  unfold len. rewrite Nat2Z.id. cbn [contents]. rewrite drop_app_length.
  rewrite NewScanner_table. cbn [toks ferr Text tl].
  rewrite String.eqb_refl. cbn [negb].
  destruct (xrefLoop_table (Z.of_nat (List.length (tableEntries subs)))
              "trailer" (toks (NewScanner (tail, None))) subs
              initLoop Hr ltac:(cbn; lia) ltac:(cbn; lia) Hmax)
    as (st' & -> & Hent).
  cbn [bind]. now rewrite Hent.
Qed.

Lemma ListXrefEntries_reads_written_table_witness :
  let subs := [(0, [mkXrefEntry 0 0 65535 false]);
               (3, [mkXrefEntry 17 0 0 true; mkXrefEntry 81 0 2 true])] in
  ListXrefEntries
    (mkTrailer 9 3 EmptyString
       (mkFile (("%PDF-1.4" ++ nl) ++ "xref" ++ nl ++ lines (tableLines subs)
                ++ "trailer" ++ nl ++ "<< /Size 3 >>")))
  = Done ([mkXrefEntry 0 0 65535 false; mkXrefEntry 17 3 0 true;
           mkXrefEntry 81 4 2 true], None).
Proof.
  intros subs.
  apply (ListXrefEntries_reads_written_table ("%PDF-1.4" ++ nl) subs
           "<< /Size 3 >>" EmptyString).
  - unfold subs, subsectionInRange, entryInRange.
    repeat (constructor; cbn; try lia).
  - vm_compute. discriminate.
Defined.

(** ** Lookup in a parsed subsection *)

Lemma findXrefEntry_renumber_skip (es : list XrefEntry) :
  forall (first number generation : Z),
    number < first ->
    findXrefEntry (renumber first es) number generation
    = (zeroXrefEntry, Some (ErrNew "no entry found")).
Proof.
  induction es as [|e es IH]; intros first number generation H;
    [reflexivity|].
  cbn [renumber findXrefEntry setNumber Number].
  destruct (first =? number) eqn:E; [apply Z.eqb_eq in E; lia|].
  cbn [andb]. apply IH. lia.
Qed.

Lemma findXrefEntry_renumber_hit (es : list XrefEntry) :
  forall (first : Z) (i : nat) (e : XrefEntry),
    nth_error es i = Some e ->
    findXrefEntry (renumber first es) (first + Z.of_nat i) (Generation e)
    = (setNumber e (first + Z.of_nat i), None).
Proof.
  induction es as [|a es IH]; intros first i e Hi; [destruct i; discriminate|].
  destruct i as [|i].
  - injection Hi as ->. cbn [renumber findXrefEntry].
    rewrite Z.add_0_r. unfold setNumber at 1 2. cbn [Number Generation].
    now rewrite !Z.eqb_refl.
  - cbn [renumber findXrefEntry]. unfold setNumber at 1. cbn [Number].
    destruct (first =? first + Z.of_nat (S i)) eqn:E;
      [apply Z.eqb_eq in E; lia|].
    cbn [andb].
    replace (first + Z.of_nat (S i)) with (first + 1 + Z.of_nat i) by lia.
    now apply IH.
Qed.

(** X13. In the entries of one subsection, numbered from its first object
    number on, the object number alone decides which entry a lookup
    meets: asking for the number of the entry at position [i] with that
    entry's generation returns that entry; asking for it with another
    generation, or asking for a number below the first, finds nothing. *)
Theorem findXrefEntry_in_subsection :
  forall (es : list XrefEntry) (first : Z) (i : nat) (e : XrefEntry)
         (generation : Z),
    nth_error es i = Some e ->
    findXrefEntry (renumber first es) (first + Z.of_nat i) generation
    = if Generation e =? generation
      then (setNumber e (first + Z.of_nat i), None)
      else (zeroXrefEntry, Some (ErrNew "no entry found")).
Proof.
  induction es as [|a es IH]; intros first i e generation Hi.
  - destruct i; discriminate.
  - destruct i as [|i].
    + injection Hi as ->. cbn [renumber findXrefEntry].
      rewrite Z.add_0_r. unfold setNumber at 1 2. cbn [Number Generation].
      rewrite Z.eqb_refl. cbn [andb].
      destruct (Generation e =? generation); [reflexivity|].
      apply findXrefEntry_renumber_skip. lia.
    + cbn [renumber findXrefEntry]. unfold setNumber at 1. cbn [Number].
      destruct (first =? first + Z.of_nat (S i)) eqn:E;
        [apply Z.eqb_eq in E; lia|].
      cbn [andb].
      replace (first + Z.of_nat (S i)) with (first + 1 + Z.of_nat i) by lia.
      now apply IH.
Qed.

Lemma findXrefEntry_in_subsection_witness :
  findXrefEntry
    (renumber 3 [mkXrefEntry 17 0 0 true; mkXrefEntry 81 0 2 true])
    (3 + Z.of_nat 1) 2
  = if Generation (mkXrefEntry 81 0 2 true) =? 2
    then (setNumber (mkXrefEntry 81 0 2 true) (3 + Z.of_nat 1), None)
    else (zeroXrefEntry, Some (ErrNew "no entry found")).
Proof.
  apply (findXrefEntry_in_subsection
           [mkXrefEntry 17 0 0 true; mkXrefEntry 81 0 2 true] 3 1).
  reflexivity.
Defined.

(** ** main *)

Lemma readTrailer_short (f : File) :
  len (contents f) < 1024 ->
  readTrailer f (len (contents f))
  = (mkTrailer 0 0 EmptyString f, Some ErrNegativeOffset).
Proof.
  intros H. unfold readTrailer, File_ReadAt.
  rewrite wrap64_small by (unfold min_int64, max_int64, len in *; lia).
  destruct (len (contents f) - 1024 <? 0) eqn:E; [reflexivity|].
  apply Z.ltb_ge in E. lia.
Qed.

(** X14. The trailer is read before the command is looked at: on a file
    shorter than 1024 bytes every run with a file argument ends in
    [log.Fatal] with the negative-offset error, whatever the command is,
    and even when the command is missing. *)
Theorem main_short_file_is_fatal :
  forall (pp : Trailer -> string) (open : string -> File + error)
         (args : list string) (path : string) (f : File),
    at_index args 1 = Done path ->
    open path = inl f ->
    len (contents f) < 1024 ->
    main pp open args = Fatal ErrNegativeOffset.
Proof.
  intros pp open args path f Hpath Hopen Hlen.
  unfold main. rewrite Hpath, Hopen, readTrailer_short by assumption.
  reflexivity.
Qed.

Lemma main_short_file_is_fatal_witness :
  main (fun _ => EmptyString) (fun _ => inl smallPDF) ["pdf"; "small.pdf"]
  = Fatal ErrNegativeOffset.
Proof.
  apply (main_short_file_is_fatal _ _ _ "small.pdf" smallPDF); reflexivity.
Defined.

Lemma AtoiValue_decimal (v : Z) :
  0 <= v <= max_int64 -> AtoiValue (decimal v) = v.
Proof.
  intros H. unfold AtoiValue, Atoi. now rewrite parseInt64_decimal.
Qed.

(** X15. For [show_xref_entry], the index [-1] stands for the object
    number [len(entries) - 1] with generation 0: when the table has been
    read and is not empty, the run ends exactly as the run that names
    that number in decimal. *)
Theorem main_last_entry_sentinel :
  forall (pp : Trailer -> string) (open : string -> File + error)
         (prog path : string) (more : list string)
         (f : File) (tr : Trailer) (es : list XrefEntry),
    open path = inl f ->
    readTrailer f (len (contents f)) = (tr, None) ->
    ListXrefEntries tr = Done (es, None) ->
    es <> [] ->
    Z.of_nat (List.length es) - 1 <= max_int64 ->
    main pp open (prog :: path :: "show_xref_entry" :: "-1" :: more)
    = main pp open
        (prog :: path :: "show_xref_entry"
         :: decimal (Z.of_nat (List.length es) - 1) :: more).
Proof.
  intros pp open prog path more f tr es Hopen Htr Hes Hne Hmax.
  assert (Hlen : 0 <= Z.of_nat (List.length es) - 1)
    by (destruct es; [contradiction|cbn [List.length]; lia]).
  unfold main. cbn [at_index nth_error]. rewrite Hopen, Htr.
  cbn [String.eqb Ascii.eqb Bool.eqb andb]. rewrite Hes.
  rewrite AtoiValue_decimal by lia.
  change (AtoiValue "-1") with (-1). cbn [Z.eqb Pos.eqb].
  destruct (Z.of_nat (List.length es) - 1 =? -1) eqn:E;
    [apply Z.eqb_eq in E; lia|reflexivity].
Qed.

Lemma main_last_entry_sentinel_witness :
  let f := paddedFile ["xref"; "0 1"; "0000000000 65535 f "; "3 2";
                       "0000000017 00000 n "; "0000000081 00000 n ";
                       "trailer"; "/Size 3"; "startxref"; "1025"; "%%EOF"] in
  main (fun _ => EmptyString) (fun _ => inl f)
       ["pdf"; "two.pdf"; "show_xref_entry"; "-1"]
  = main (fun _ => EmptyString) (fun _ => inl f)
         ["pdf"; "two.pdf"; "show_xref_entry"; decimal (Z.of_nat 3 - 1)].
Proof.
  intros f.
  apply (main_last_entry_sentinel _ _ "pdf" "two.pdf" [] f
           (fst (readTrailer f (len (contents f))))
           [mkXrefEntry 0 0 65535 false; mkXrefEntry 17 3 0 true;
            mkXrefEntry 81 4 0 true]).
  - reflexivity.
  - vm_compute. reflexivity.
  - vm_compute. reflexivity.
  - discriminate.
  - vm_compute. discriminate.
Defined.

(** ** From the table to the object *)

(** X16. Table, lookup and extraction fit together.  Take a file that
    holds a one-subsection table written as in X12 and, at the byte
    offset recorded in the table's entry at position [i], the lines of an
    object closed by [endobj].  Then reading the table, looking up the
    object number [first + i] with that entry's generation and
    extracting the entry found yields the lines of that object. *)
Theorem lookup_and_extract_written_object :
  forall (f : File) (before : string) (first : Z) (es : list XrefEntry)
         (tail raw : string) (i : nat) (e : XrefEntry)
         (pre l : string) (body : list string) (eo post : string),
    contents f
    = before ++ "xref" ++ nl ++ lines (tableLines [(first, es)])
      ++ "trailer" ++ nl ++ tail ->
    subsectionInRange (first, es) ->
    nth_error es i = Some e ->
    contents f = pre ++ lines (l :: body ++ [eo]) ++ post ->
    ByteOffset e = len pre ->
    forallb scannable (l :: body ++ [eo]) = true ->
    HasSuffix (dropCR l) "obj" = true ->
    forallb (fun x => negb (EqualFold (dropCR x) "endobj")) body = true ->
    EqualFold (dropCR eo) "endobj" = true ->
    exists entries ent,
      ListXrefEntries
        (mkTrailer (len before) (Z.of_nat (List.length es)) raw f)
      = Done (entries, None)
      /\ findXrefEntry entries (first + Z.of_nat i) (Generation e) = (ent, None)
      /\ readEntry ent f = (lines (map dropCR (l :: body ++ [eo])), None).
Proof.
  intros [c] before first es tail raw i e pre l body eo post
         Htab Hr Hi Hobj Hoff Hscan Hstart Hbody Hend.
  cbn [contents] in Htab, Hobj.
  assert (Hlen : List.length (tableEntries [(first, es)]) = List.length es).
  { unfold tableEntries. cbn [map List.concat fst snd].
    now rewrite app_nil_r, length_renumber. }
  exists (tableEntries [(first, es)]), (setNumber e (first + Z.of_nat i)).
  split; [|split].
  - unfold ListXrefEntries. cbn [ra StartXref Size contents].
    rewrite AtReader_stream_nonneg by (unfold len; lia).
    unfold len. rewrite Nat2Z.id. cbn [contents].
    rewrite Htab, drop_app_length, NewScanner_table.
    cbn [toks ferr Text tl]. rewrite String.eqb_refl. cbn [negb].
    destruct (xrefLoop_table (Z.of_nat (List.length es)) "trailer"
                (toks (NewScanner (tail, None))) [(first, es)] initLoop)
      as (st' & -> & Hent).
    + now constructor.
    + cbn. lia.
    + cbn [total initLoop]. now rewrite Hlen.
    + destruct Hr as (H0 & H1 & _). cbn [fst snd] in *. lia.
    + cbn [bind]. now rewrite Hent.
  - unfold tableEntries. cbn [map List.concat fst snd]. rewrite app_nil_r.
    now apply findXrefEntry_renumber_hit.
  - rewrite Hobj. now apply readEntry_object_lines.
Qed.

Lemma lookup_and_extract_written_object_witness :
  let body := ["<< /Type /Catalog >>"] in
  let before := "%PDF-1.4" ++ nl ++ lines ("1 0 obj" :: body ++ ["endobj"]) in
  let es := [mkXrefEntry 9 0 0 true] in
  let f := mkFile (before ++ "xref" ++ nl ++ lines (tableLines [(1, es)])
                   ++ "trailer" ++ nl ++ "<< /Size 1 >>") in
  exists entries ent,
    ListXrefEntries (mkTrailer (len before) (Z.of_nat (List.length es)) EmptyString f)
    = Done (entries, None)
    /\ findXrefEntry entries (1 + Z.of_nat 0)
         (Generation (mkXrefEntry 9 0 0 true)) = (ent, None)
    /\ readEntry ent f
       = (lines (map dropCR ("1 0 obj" :: body ++ ["endobj"])), None).
Proof.
  intros body before es f.
  apply (lookup_and_extract_written_object f before 1 es "<< /Size 1 >>"
           EmptyString 0 (mkXrefEntry 9 0 0 true) ("%PDF-1.4" ++ nl)
           "1 0 obj" body "endobj"
           ("xref" ++ nl ++ lines (tableLines [(1, es)])
            ++ "trailer" ++ nl ++ "<< /Size 1 >>"));
    try reflexivity.
  unfold subsectionInRange, entryInRange, es.
  repeat (constructor; cbn; try lia).
Defined.

(** ** readEntry: what a result looks like *)

Lemma entryLoop_inv (ts : list string) :
  forall (b b' : string) (exhausted : bool),
    entryLoop ts b = (b', exhausted) ->
    (exhausted = true /\ b' = b ++ lines ts
     /\ forall x, In x ts -> EqualFold x "endobj" = false)
    \/ (exhausted = false
        /\ exists ls e rest,
            ts = (ls ++ e :: rest)%list
            /\ b' = b ++ lines (ls ++ [e])
            /\ EqualFold e "endobj" = true
            /\ forall x, In x ls -> EqualFold x "endobj" = false).
Proof.
  induction ts as [|t ts IH]; intros b b' ex H.
  - injection H as <- <-. left. rewrite append_nil_r.
    repeat split. intros x [].
  - cbn [entryLoop] in H. destruct (EqualFold t "endobj") eqn:E.
    + injection H as <- <-. right. split; [reflexivity|].
      exists [], t, ts. cbn [app lines]. rewrite append_nil_r.
      repeat split; auto. intros x [].
    + destruct (IH _ _ _ H) as [(-> & -> & Hno)|(-> & ls & e & rest & -> & -> & He & Hno)].
      * left. cbn [lines]. rewrite !append_assoc. repeat split.
        intros x [<-|Hx]; auto.
      * right. split; [reflexivity|]. exists (t :: ls), e, rest.
        cbn [app lines]. rewrite !append_assoc. repeat split; auto.
        intros x [<-|Hx]; auto.
Qed.

(** X17. Whatever [readEntry] returns without error is made of the lines
    scanned from the entry's offset, taken in order from the first one,
    which ends with [obj], each followed by a newline; it stops with the
    first later line that equals [endobj] without regard to case, or, when
    there is none, holds every line up to a clean end of the data.  With
    an error no bytes are returned. *)
Theorem readEntry_result_shape :
  forall (ent : XrefEntry) (f : File) (b : string) (err : option error),
    readEntry ent f = (b, err) ->
    let sc := NewScanner (AtReader_stream (NewAtReader f (ByteOffset ent))) in
    match err with
    | Some _ => b = EmptyString
    | None =>
        exists l ls rest,
          toks sc = (l :: ls ++ rest)%list
          /\ b = lines (l :: ls)
          /\ HasSuffix l "obj" = true
          /\ ((exists ls' e,
                  ls = (ls' ++ [e])%list /\ EqualFold e "endobj" = true
                  /\ forall x, In x ls' -> EqualFold x "endobj" = false)
              \/ (rest = [] /\ ferr sc = None
                  /\ forall x, In x ls -> EqualFold x "endobj" = false))
    end.
Proof.
  intros ent f b err H sc. unfold readEntry in H. fold sc in H.
  destruct (HasSuffix (Text (toks sc)) "obj") eqn:S; cbn [negb] in H.
  2:{ injection H as <- <-. reflexivity. }
  destruct (toks sc) as [|l ts] eqn:T; [discriminate|].
  cbn [Text tl] in *.
  destruct (entryLoop ts (l ++ nl)) as [b' ex] eqn:L.
  destruct (entryLoop_inv _ _ _ _ L)
    as [(-> & -> & Hno)|(-> & ls & e & rest & -> & -> & He & Hno)].
  - destruct (ferr sc) eqn:F; injection H as <- <-; [reflexivity|].
    exists l, ts, []. rewrite app_nil_r. cbn [lines].
    rewrite append_assoc. repeat split; auto.
  - injection H as <- <-. exists l, (ls ++ [e])%list, rest.
    rewrite <- app_assoc. cbn [app lines]. rewrite append_assoc.
    repeat split; auto. left. exists ls, e. auto.
Qed.

Lemma readEntry_result_shape_witness :
  let f := mkFile ("%PDF-1.4" ++ nl ++ catalogObject ++ "xref") in
  let ent := mkXrefEntry 9 5 0 true in
  let sc := NewScanner (AtReader_stream (NewAtReader f (ByteOffset ent))) in
  exists l ls rest,
    toks sc = (l :: ls ++ rest)%list
    /\ catalogObject = lines (l :: ls)
    /\ HasSuffix l "obj" = true
    /\ ((exists ls' e,
            ls = (ls' ++ [e])%list /\ EqualFold e "endobj" = true
            /\ forall x, In x ls' -> EqualFold x "endobj" = false)
        \/ (rest = [] /\ ferr sc = None
            /\ forall x, In x ls -> EqualFold x "endobj" = false)).
Proof.
  intros f ent sc.
  apply (readEntry_result_shape ent f catalogObject None). reflexivity.
Defined.

(** ** What is never looked at *)

(** X18. Reading at an offset never looks at the bytes before it: two
    files that agree from the offset on give the same table, and the same
    extracted object, whatever precedes the offset in each. *)
Theorem reads_ignore_bytes_before_offset :
  forall (f g : File) (off : Z),
    0 <= off ->
    drop (Z.to_nat off) (contents f) = drop (Z.to_nat off) (contents g) ->
    (forall size raw,
        ListXrefEntries (mkTrailer off size raw f)
        = ListXrefEntries (mkTrailer off size raw g))
    /\ (forall ent, ByteOffset ent = off -> readEntry ent f = readEntry ent g).
Proof.
  intros f g off Hoff Heq. split.
  - intros size raw. unfold ListXrefEntries. cbn [ra StartXref Size].
    now rewrite !AtReader_stream_nonneg, Heq by assumption.
  - intros ent He. unfold readEntry. rewrite He.
    now rewrite !AtReader_stream_nonneg, Heq by assumption.
Qed.

Lemma reads_ignore_bytes_before_offset_witness :
  let f := mkFile ("%PDF-1.4" ++ nl ++ catalogObject) in
  let g := mkFile ("%PDF-2.0" ++ nl ++ catalogObject) in
  ListXrefEntries (mkTrailer 9 1 EmptyString f)
  = ListXrefEntries (mkTrailer 9 1 EmptyString g)
  /\ readEntry (mkXrefEntry 9 5 0 true) f = readEntry (mkXrefEntry 9 5 0 true) g.
Proof.
  intros f g.
  destruct (reads_ignore_bytes_before_offset f g 9 ltac:(lia) eq_refl)
    as [H1 H2].
  split; [apply H1|apply H2; reflexivity].
Defined.

Lemma trailerLoop_file_blind (n : nat) :
  forall (ts : list string) (a b : Trailer),
    (List.length ts <= n)%nat ->
    sameButFile a b ->
    sameButFile (fst (trailerLoop a ts)) (fst (trailerLoop b ts))
    /\ snd (trailerLoop a ts) = snd (trailerLoop b ts).
Proof.
  induction n as [|n IH]; intros [|l rest] a b Hlen Hab; simpl in Hlen;
    try lia; try (split; [exact Hab|reflexivity]).
  assert (Hx : forall v, sameButFile (setStartXref a v) (setStartXref b v))
    by (intros v; destruct Hab as (? & ? & ?); repeat split; assumption).
  assert (Hs : forall v, sameButFile (setSize a v) (setSize b v))
    by (intros v; destruct Hab as (? & ? & ?); repeat split; assumption).
  cbn [trailerLoop]. destruct (HasPrefix l "startxref").
  - destruct rest as [|t rest'].
    + split; [exact Hab|reflexivity].
    + destruct (ParseInt t) as [xref|err]; [|split; [exact Hab|reflexivity]].
      apply IH; [simpl in Hlen; lia|apply Hx].
  - destruct (0 <=? Index l (sizeEntry ++ " ")); [|apply IH; [lia|exact Hab]].
    destruct (ParseInt _) as [size|err]; [|split; [exact Hab|reflexivity]].
    destruct (size =? 0); [split; [exact Hab|reflexivity]|].
    apply IH; [lia|apply Hs].
Qed.

(** X19. For files of at least 1024 bytes the trailer depends on the last
    1024 bytes only: two files with the same last 1024 bytes give the
    same [StartXref], [Size], [Raw] and error.  A [startxref] or [/Size]
    line further from the end of the file is never seen. *)
Theorem readTrailer_depends_on_tail :
  forall f g : File,
    1024 <= len (contents f) <= max_int64 ->
    1024 <= len (contents g) <= max_int64 ->
    drop (String.length (contents f) - 1024) (contents f)
    = drop (String.length (contents g) - 1024) (contents g) ->
    sameButFile (fst (readTrailer f (len (contents f))))
                (fst (readTrailer g (len (contents g))))
    /\ snd (readTrailer f (len (contents f)))
       = snd (readTrailer g (len (contents g))).
Proof.
  intros f g Hf Hg Heq.
  rewrite !readTrailer_long by assumption.
  assert (Hb : trailerBlock f = trailerBlock g)
    by (unfold trailerBlock; now rewrite Heq).
  rewrite Hb.
  apply (trailerLoop_file_blind _ _ _ _ (le_n _)).
  repeat split.
Qed.

Lemma readTrailer_depends_on_tail_witness :
  let f := paddedFile ["trailer"; "/Size 5"; "startxref"; "9"; "%%EOF"] in
  let g := mkFile ("/Size 77" ++ nl ++ contents f) in
  sameButFile (fst (readTrailer f (len (contents f))))
              (fst (readTrailer g (len (contents g))))
  /\ snd (readTrailer f (len (contents f)))
     = snd (readTrailer g (len (contents g))).
Proof.
  intros f g.
  apply (readTrailer_depends_on_tail f g).
  - vm_compute. split; discriminate.
  - vm_compute. split; discriminate.
  - vm_compute. reflexivity.
Defined.

(** ** readEntry: data that ends before endobj *)

(** The last, unterminated line of the data is delivered when it is not
    empty and shorter than [MaxScanTokenSize]. *)
Lemma scanFrom_final (l : string) :
  forall (acc : string) (n : Z),
    noNewline l = true ->
    n + len l < MaxScanTokenSize ->
    scanFrom acc n l
    = (if n + len l =? 0 then [] else [dropCR (acc ++ l)], None).
Proof.
  induction l as [|c l IH]; intros acc n Hnl Hlen.
  - cbn [scanFrom]. unfold len. cbn [String.length Z.of_nat].
    now rewrite Z.add_0_r, append_nil_r.
  - simpl in Hnl. apply andb_prop in Hnl as [Hc Hl].
    apply negb_true_iff in Hc.
    unfold len in Hlen. simpl String.length in Hlen.
    cbn [scanFrom]. rewrite Hc.
    destruct (MaxScanTokenSize <=? n + 1) eqn:E; [apply Z.leb_le in E; lia|].
    rewrite IH by (auto; unfold len; lia).
    rewrite append_assoc. cbn [append].
    replace (n + 1 + len l) with (n + len (String c l))
      by (unfold len; simpl String.length; lia).
    reflexivity.
Qed.

Lemma length_fill (n : nat) (c : ascii) : String.length (fill n c) = n.
Proof. induction n; simpl; congruence. Qed.

Lemma noNewline_fill (n : nat) (c : ascii) :
  isNL c = false -> noNewline (fill n c) = true.
Proof. intros H. induction n; simpl; [reflexivity|now rewrite H]. Qed.

(** C9, as stated, fails.  The file holds the start line [5 0 obj] and
    then 65536 bytes [x] without a newline; it holds no [endobj], so the
    data ends before an [endobj] line is seen.  [readEntry] does not
    return the bytes accumulated so far with a nil error: the scanner
    stops with [ErrTooLong] and [readEntry] returns no bytes and the error
    "unable to read entry: token too long". *)
Lemma readEntry_truncated_long_line_fails :
  let f := mkFile ("5 0 obj" ++ nl ++ fill (Z.to_nat 65536) "x") in
  let ent := mkXrefEntry 0 5 0 true in
  HasSuffix "5 0 obj" "obj" = true
  /\ Index (contents f) "endobj" = -1
  /\ readEntry ent f
     = (EmptyString, Some (ErrWrap "unable to read entry" ErrTooLong))
  /\ snd (readEntry ent f) <> None.
Proof.
  intros f ent.
  assert (H : readEntry ent f
              = (EmptyString, Some (ErrWrap "unable to read entry" ErrTooLong))).
  { pose proof (readEntry_long_line EmptyString (fill (Z.to_nat 65536) "x")
                  EmptyString ent eq_refl
                  (noNewline_fill _ "x" eq_refl)) as H.
    rewrite append_nil_r in H. apply H.
    unfold len, MaxScanTokenSize. rewrite length_fill. lia. }
  split; [reflexivity|]. split; [vm_compute; reflexivity|].
  split; [exact H|]. rewrite H. discriminate.
Qed.

(** C9, amended.  At the entry's offset the file holds a start line [l]
    ending with [obj] and the lines [body], none of them equal to
    [endobj] without regard to case, all shorter than [MaxScanTokenSize]
    bytes.  When the data then ends with a last line [last] (empty when
    the data ends with a newline) that is shorter than [MaxScanTokenSize]
    bytes and not [endobj], [readEntry] returns every line scanned so
    far, each without its trailing carriage return and followed by a
    newline, and no error: the truncated object is returned silently.
    When instead a line of [MaxScanTokenSize] bytes or more follows,
    [readEntry] returns no bytes and the error "unable to read entry"
    wrapping the scanner's [ErrTooLong]. *)
Theorem readEntry_truncated_object :
  forall (pre l : string) (body : list string) (ent : XrefEntry),
    ByteOffset ent = len pre ->
    forallb scannable (l :: body) = true ->
    HasSuffix (dropCR l) "obj" = true ->
    forallb (fun x => negb (EqualFold (dropCR x) "endobj")) body = true ->
    (forall last : string,
        scannable last = true ->
        EqualFold (dropCR last) "endobj" = false ->
        readEntry ent (mkFile (pre ++ lines (l :: body) ++ last))
        = (lines (map dropCR (l :: body)
                  ++ (if len last =? 0 then [] else [dropCR last]))%list,
           None))
    /\
    (forall long rest : string,
        noNewline long = true ->
        MaxScanTokenSize <= len long ->
        readEntry ent (mkFile (pre ++ lines (l :: body) ++ long ++ rest))
        = (EmptyString, Some (ErrWrap "unable to read entry" ErrTooLong))).
Proof.
  intros pre l body ent Hoff Hscan Hobj Hbody.
  assert (Hno : forall x, In x (map dropCR body) ->
                          EqualFold x "endobj" = false).
  { intros x Hx. apply in_map_iff in Hx as (y & <- & Hy).
    rewrite forallb_forall in Hbody. now apply negb_true_iff, Hbody. }
  split.
  - intros last Hlast Hend.
    unfold scannable in Hlast. apply andb_prop in Hlast as [Hnl Hlen].
    apply Z.ltb_lt in Hlen.
    unfold readEntry.
    rewrite Hoff, AtReader_stream_nonneg by (unfold len; lia).
    replace (Z.to_nat (len pre)) with (String.length pre) by (unfold len; lia).
    cbn [contents]. rewrite drop_app_length.
    rewrite NewScanner_lines by now apply scannable_spec.
    assert (Hfin : NewScanner (last, None)
                   = mkScanner (if len last =? 0 then [] else [dropCR last])
                               None).
    { unfold NewScanner. now rewrite scanFrom_final by (auto; lia). }
    rewrite Hfin.
    cbn [toks ferr map app Text tl]. rewrite Hobj. cbn [negb].
    rewrite entryLoop_no_endobj.
    + cbn [lines]. now rewrite !append_assoc.
    + intros x Hx. apply in_app_or in Hx as [Hx|Hx]; [now apply Hno|].
      destruct (len last =? 0); [destruct Hx|].
      destruct Hx as [<-|[]]. exact Hend.
  - intros long rest Hnl Hlen.
    unfold readEntry.
    rewrite Hoff, AtReader_stream_nonneg by (unfold len; lia).
    replace (Z.to_nat (len pre)) with (String.length pre) by (unfold len; lia).
    cbn [contents]. rewrite drop_app_length.
    rewrite NewScanner_lines by now apply scannable_spec.
    assert (Hfin : NewScanner (long ++ rest, None)
                   = mkScanner [] (Some ErrTooLong)).
    { unfold NewScanner.
      now rewrite scanFrom_too_long
        by (auto; unfold MaxScanTokenSize in *; lia). }
    rewrite Hfin.
    cbn [toks ferr map app Text tl]. rewrite Hobj. cbn [negb].
    rewrite app_nil_r, entryLoop_no_endobj by assumption.
    reflexivity.
Qed.

Lemma readEntry_truncated_object_witness :
  readEntry (mkXrefEntry 9 5 0 true)
    (mkFile (("%PDF-1.4" ++ nl)
             ++ lines ["5 0 obj"; "<< /Type /Catalog"] ++ "/Pages 2 0 R"))
  = (lines ["5 0 obj"; "<< /Type /Catalog"; "/Pages 2 0 R"], None)
  /\ readEntry (mkXrefEntry 9 5 0 true)
       (mkFile (("%PDF-1.4" ++ nl)
                ++ lines ["5 0 obj"; "<< /Type /Catalog"]
                ++ fill (Z.to_nat 65536) "x" ++ nl))
     = (EmptyString, Some (ErrWrap "unable to read entry" ErrTooLong)).
Proof.
  split.
  - apply (proj1 (readEntry_truncated_object ("%PDF-1.4" ++ nl) "5 0 obj"
                    ["<< /Type /Catalog"] (mkXrefEntry 9 5 0 true)
                    eq_refl eq_refl eq_refl eq_refl) "/Pages 2 0 R");
      reflexivity.
  - apply (proj2 (readEntry_truncated_object ("%PDF-1.4" ++ nl) "5 0 obj"
                    ["<< /Type /Catalog"] (mkXrefEntry 9 5 0 true)
                    eq_refl eq_refl eq_refl eq_refl)).
    + vm_compute. reflexivity.
    + vm_compute. discriminate.
Defined.
